(** * RaceBox fastlock: sample fusion pipeline and run-lifecycle state machine

    Shallow embedding of the most complete iteration of the position
    handler (the first IIFE of [src/unnamed/part_000], lines 1-459):
    [CONFIG], the [kalman] object, [hav], [headingDeg], [lowPass],
    [rebuildSpeedFromDelta], [resetMarks], [finishRun], [onPos], [arm],
    [stop], [resetAll] and [estimateWHPFromMarker]; and, for comparison,
    [finishRun] and [onPos] of the earlier iteration kept in the same file
    (lines 461-987).

    Numbers.  JavaScript numbers are IEEE-754 doubles; here they are
    idealised as exact rationals [Q], so that [+ - * /] and the comparisons
    are the mathematical ones and every definition still evaluates.  NaN and
    infinities have no counterpart.  The transcendental builtins
    ([Math.sin], [Math.cos], [Math.atan2], [Math.sqrt], [Math.PI]) are not
    rational functions: they are taken as a parameter ([MathLib]) and
    [hav] / [headingDeg] are written over it exactly as in the source.

    Effects.  The handler mutates closure variables; the embedding threads
    one explicit [State] record through every operation.  What the handler
    reads from its environment during a call (the fix itself, the two
    [performance.now()] readings, [Date.now()], the rollout checkbox and
    the mode selector) is gathered in one [PosEvent] record.  Writes to the
    DOM, the canvas and local storage are display-only and are left out;
    the status line is kept as an enumeration. *)

From Stdlib Require Import QArith Qabs Qround Qminmax Lqa.
From stdpp Require Import gmap strings list.

Open Scope Q_scope.

(** ** Number helpers *)

Definition Qltb (a b : Q) : bool := negb (Qle_bool b a).

Infix "<=?" := Qle_bool (at level 70, no associativity) : Q_scope.
Infix "<?" := Qltb (at level 70, no associativity) : Q_scope.
Notation "a >=? b" := (Qle_bool b a) (at level 70, no associativity) : Q_scope.
Notation "a >? b" := (Qltb b a) (at level 70, no associativity) : Q_scope.

(** Truncation toward zero, as used by the JavaScript remainder. *)
Definition Qtrunc (a : Q) : Z := Z.quot (Qnum a) (Zpos (Qden a)).

(** [a % b] of JavaScript on finite operands: [a - b * trunc (a / b)], with
    the sign of the dividend.  ([b = 0] gives NaN in JavaScript; the program
    only ever divides by 360.) *)
Definition jsmod (a b : Q) : Q := a - b * inject_Z (Qtrunc (a / b)).

(** JavaScript truthiness of a number: [0] is falsy. *)
Definition truthy (a : Q) : bool := negb (Qeq_bool a 0).

(** ** CONFIG (lines 9-20) *)

Definition GHOST_THRESHOLD_KMH : Q := 2.5.
Definition START_THRESHOLD_KMH : Q := 3.
Definition START_WINDOW_MS : Q := 450.
Definition SPEED_SMOOTH_ALPHA : Q := 0.25.
Definition KALMAN_Q : Q := 0.1.
Definition KALMAN_R : Q := 2.0.
Definition HEADING_MAX_DEG : Q := 25.
Definition REBUILD_SPEED_MAX_DT : Q := 1200.
Definition ROLL_OUT_M : Q := 0.3048.

Definition MILESTONES : list Z := [20; 100; 201; 402]%Z.

(** ** The kalman object (lines 69-74) *)

Module Kalman.

Record t : Type := mk { x : Q; p : Q; q : Q; r : Q }.

(** The object literal: [x: 0, p: 1, q: CONFIG.KALMAN_Q, r: CONFIG.KALMAN_R]. *)
Definition init : t := {| x := 0; p := 1; q := KALMAN_Q; r := KALMAN_R |}.

(** [predict() { this.p += this.q; }] *)
Definition predict (s : t) : t :=
  {| x := x s; p := p s + q s; q := q s; r := r s |}.

(** The gain [k = this.p/(this.p+this.r)] computed by [update] after its
    call to [predict]. *)
Definition gain (s : t) : Q :=
  let s1 := predict s in p s1 / (p s1 + r s1).

(** [update(z)]: predict, then [x += k*(z-x)], [p = (1-k)*p]; the value
    returned to the caller is the new [x]. *)
Definition update (s : t) (z : Q) : t :=
  let s1 := predict s in
  let k := p s1 / (p s1 + r s1) in
  {| x := x s1 + k * (z - x s1); p := (1 - k) * p s1; q := q s1; r := r s1 |}.

(** [reset(v) { this.x = v; this.p = 1; }] *)
Definition reset (s : t) (v : Q) : t :=
  {| x := v; p := 1; q := q s; r := r s |}.

End Kalman.

(** ** Minimal angular difference (lines 205 and 270)

    [Math.abs(((b - a + 540) % 360) - 180)], with [a] the remembered bearing
    and [b] the new one. *)
Definition angDiff (a b : Q) : Q := Qabs (jsmod (b - a + 540) 360 - 180).

(** ** Data model *)

(** The [{latitude, longitude}] objects kept in [startPos] and [lastPos]. *)
Module Pos.
Record pos : Type := mk { latitude : Q; longitude : Q }.
End Pos.

(** [p.coords] of a geolocation fix.  [speed] is [null] (here [None]) when
    the receiver reports no velocity: [typeof c.speed === 'number'] fails. *)
Module Coords.
Record coords : Type :=
  mk { latitude : Q; longitude : Q; accuracy : Q; speed : option Q }.
End Coords.

(** Entries [{t, speed}] of the rolling buffers [samples] and [graphSamples]. *)
Module Sample.
Record sample : Type := mk { t : Q; speed : Q }.
End Sample.

(** A milestone capture [{time, speed}]. *)
Module Mark.
Record mark : Type := mk { time : Q; speed : Q }.
End Mark.

(** The texts handed to [setStatus]. *)
Inductive Status : Type :=
| StIdle              (* 'idle' *)
| StRequestingGPS     (* 'arming - requesting GPS' *)
| StWaitingAccuracy   (* 'arming - waiting GPS accuracy' *)
| StWaitingThrottle   (* 'armed - waiting throttle' *)
| StRunning           (* 'running' *)
| StFinish            (* 'finish - run complete' *)
| StStopped.          (* 'stopped' *)

(** The object [last] built by [finishRun] and stored in [window._lastRun]. *)
Record RunRecord : Type := mkRunRecord {
  rr_mode : string;
  rr_date : Q;
  rr_peak : Q;
  rr_marks : gmap Z (option Mark.mark);
  rr_d20 : option Q; rr_d100 : option Q; rr_d201 : option Q; rr_d402 : option Q;
  rr_s20 : option Q; rr_s100 : option Q; rr_s201 : option Q; rr_s402 : option Q;
  rr_distance : Q;
  rr_rollout : bool
}.

(** The closure variables of the IIFE (lines 51-66) together with the
    [kalman] object and [window._lastRun].  [marks] is the JavaScript object
    used as a map from milestone to capture: a key bound to [null] is
    [Some None], a key bound to a capture is [Some (Some _)]. *)
Record State : Type := mkState {
  watchId : option Z;
  armed : bool;
  running : bool;
  finished : bool;
  startPos : option Pos.pos;
  lastPos : option Pos.pos;
  lastHeading : option Q;
  cumulative : Q;
  startTime : option Q;
  peakSpeed : Q;
  samples : list Sample.sample;
  graphSamples : list Sample.sample;
  marks : gmap Z (option Mark.mark);
  kalman : Kalman.t;
  status : Status;
  lastRun : option RunRecord
}.

(** What one call of [onPos] reads from outside the closure: the fix, the
    two readings of [performance.now()] (line 196 and line 280), [Date.now()]
    (read by [finishRun]), [rolloutChk && rolloutChk.checked], and
    [modeSelect.value] ([None] when the selector element is missing). *)
Record PosEvent : Type := mkPosEvent {
  coords : Coords.coords;
  now : Q;
  nowMs : Q;
  dateNow : Q;
  rolloutChecked : bool;
  modeValue : option string
}.

(** Field assignments. *)

Definition set_watchId (v : option Z) (st : State) : State :=
  {| watchId := v; armed := armed st; running := running st;
     finished := finished st; startPos := startPos st; lastPos := lastPos st;
     lastHeading := lastHeading st; cumulative := cumulative st;
     startTime := startTime st; peakSpeed := peakSpeed st;
     samples := samples st; graphSamples := graphSamples st;
     marks := marks st; kalman := kalman st; status := status st;
     lastRun := lastRun st |}.

Definition set_armed (v : bool) (st : State) : State :=
  {| watchId := watchId st; armed := v; running := running st;
     finished := finished st; startPos := startPos st; lastPos := lastPos st;
     lastHeading := lastHeading st; cumulative := cumulative st;
     startTime := startTime st; peakSpeed := peakSpeed st;
     samples := samples st; graphSamples := graphSamples st;
     marks := marks st; kalman := kalman st; status := status st;
     lastRun := lastRun st |}.

Definition set_running (v : bool) (st : State) : State :=
  {| watchId := watchId st; armed := armed st; running := v;
     finished := finished st; startPos := startPos st; lastPos := lastPos st;
     lastHeading := lastHeading st; cumulative := cumulative st;
     startTime := startTime st; peakSpeed := peakSpeed st;
     samples := samples st; graphSamples := graphSamples st;
     marks := marks st; kalman := kalman st; status := status st;
     lastRun := lastRun st |}.

Definition set_finished (v : bool) (st : State) : State :=
  {| watchId := watchId st; armed := armed st; running := running st;
     finished := v; startPos := startPos st; lastPos := lastPos st;
     lastHeading := lastHeading st; cumulative := cumulative st;
     startTime := startTime st; peakSpeed := peakSpeed st;
     samples := samples st; graphSamples := graphSamples st;
     marks := marks st; kalman := kalman st; status := status st;
     lastRun := lastRun st |}.

Definition set_startPos (v : option Pos.pos) (st : State) : State :=
  {| watchId := watchId st; armed := armed st; running := running st;
     finished := finished st; startPos := v; lastPos := lastPos st;
     lastHeading := lastHeading st; cumulative := cumulative st;
     startTime := startTime st; peakSpeed := peakSpeed st;
     samples := samples st; graphSamples := graphSamples st;
     marks := marks st; kalman := kalman st; status := status st;
     lastRun := lastRun st |}.

Definition set_lastPos (v : option Pos.pos) (st : State) : State :=
  {| watchId := watchId st; armed := armed st; running := running st;
     finished := finished st; startPos := startPos st; lastPos := v;
     lastHeading := lastHeading st; cumulative := cumulative st;
     startTime := startTime st; peakSpeed := peakSpeed st;
     samples := samples st; graphSamples := graphSamples st;
     marks := marks st; kalman := kalman st; status := status st;
     lastRun := lastRun st |}.

Definition set_lastHeading (v : option Q) (st : State) : State :=
  {| watchId := watchId st; armed := armed st; running := running st;
     finished := finished st; startPos := startPos st; lastPos := lastPos st;
     lastHeading := v; cumulative := cumulative st;
     startTime := startTime st; peakSpeed := peakSpeed st;
     samples := samples st; graphSamples := graphSamples st;
     marks := marks st; kalman := kalman st; status := status st;
     lastRun := lastRun st |}.

Definition set_cumulative (v : Q) (st : State) : State :=
  {| watchId := watchId st; armed := armed st; running := running st;
     finished := finished st; startPos := startPos st; lastPos := lastPos st;
     lastHeading := lastHeading st; cumulative := v;
     startTime := startTime st; peakSpeed := peakSpeed st;
     samples := samples st; graphSamples := graphSamples st;
     marks := marks st; kalman := kalman st; status := status st;
     lastRun := lastRun st |}.

Definition set_startTime (v : option Q) (st : State) : State :=
  {| watchId := watchId st; armed := armed st; running := running st;
     finished := finished st; startPos := startPos st; lastPos := lastPos st;
     lastHeading := lastHeading st; cumulative := cumulative st;
     startTime := v; peakSpeed := peakSpeed st; samples := samples st;
     graphSamples := graphSamples st; marks := marks st; kalman := kalman st;
     status := status st; lastRun := lastRun st |}.

Definition set_peakSpeed (v : Q) (st : State) : State :=
  {| watchId := watchId st; armed := armed st; running := running st;
     finished := finished st; startPos := startPos st; lastPos := lastPos st;
     lastHeading := lastHeading st; cumulative := cumulative st;
     startTime := startTime st; peakSpeed := v; samples := samples st;
     graphSamples := graphSamples st; marks := marks st; kalman := kalman st;
     status := status st; lastRun := lastRun st |}.

Definition set_samples (v : list Sample.sample) (st : State) : State :=
  {| watchId := watchId st; armed := armed st; running := running st;
     finished := finished st; startPos := startPos st; lastPos := lastPos st;
     lastHeading := lastHeading st; cumulative := cumulative st;
     startTime := startTime st; peakSpeed := peakSpeed st; samples := v;
     graphSamples := graphSamples st; marks := marks st; kalman := kalman st;
     status := status st; lastRun := lastRun st |}.

Definition set_graphSamples (v : list Sample.sample) (st : State) : State :=
  {| watchId := watchId st; armed := armed st; running := running st;
     finished := finished st; startPos := startPos st; lastPos := lastPos st;
     lastHeading := lastHeading st; cumulative := cumulative st;
     startTime := startTime st; peakSpeed := peakSpeed st;
     samples := samples st; graphSamples := v; marks := marks st;
     kalman := kalman st; status := status st; lastRun := lastRun st |}.

Definition set_marks (v : gmap Z (option Mark.mark)) (st : State) : State :=
  {| watchId := watchId st; armed := armed st; running := running st;
     finished := finished st; startPos := startPos st; lastPos := lastPos st;
     lastHeading := lastHeading st; cumulative := cumulative st;
     startTime := startTime st; peakSpeed := peakSpeed st;
     samples := samples st; graphSamples := graphSamples st; marks := v;
     kalman := kalman st; status := status st; lastRun := lastRun st |}.

Definition set_kalman (v : Kalman.t) (st : State) : State :=
  {| watchId := watchId st; armed := armed st; running := running st;
     finished := finished st; startPos := startPos st; lastPos := lastPos st;
     lastHeading := lastHeading st; cumulative := cumulative st;
     startTime := startTime st; peakSpeed := peakSpeed st;
     samples := samples st; graphSamples := graphSamples st;
     marks := marks st; kalman := v; status := status st;
     lastRun := lastRun st |}.

Definition set_status (v : Status) (st : State) : State :=
  {| watchId := watchId st; armed := armed st; running := running st;
     finished := finished st; startPos := startPos st; lastPos := lastPos st;
     lastHeading := lastHeading st; cumulative := cumulative st;
     startTime := startTime st; peakSpeed := peakSpeed st;
     samples := samples st; graphSamples := graphSamples st;
     marks := marks st; kalman := kalman st; status := v;
     lastRun := lastRun st |}.

Definition set_lastRun (v : option RunRecord) (st : State) : State :=
  {| watchId := watchId st; armed := armed st; running := running st;
     finished := finished st; startPos := startPos st; lastPos := lastPos st;
     lastHeading := lastHeading st; cumulative := cumulative st;
     startTime := startTime st; peakSpeed := peakSpeed st;
     samples := samples st; graphSamples := graphSamples st;
     marks := marks st; kalman := kalman st; status := status st;
     lastRun := v |}.

(** ** The transcendental builtins *)

Class MathLib : Type := {
  Math_PI : Q;
  Math_sin : Q -> Q;
  Math_cos : Q -> Q;
  Math_sqrt : Q -> Q;
  Math_atan2 : Q -> Q -> Q
}.

Section Program.

Context `{MathLib}.

(** *** Geometry (lines 94-107) *)

Definition hav (a b : Pos.pos) : Q :=
  let R := 6371000 in
  let rad := Math_PI / 180 in
  let dLat := (Pos.latitude b - Pos.latitude a) * rad in
  let dLon := (Pos.longitude b - Pos.longitude a) * rad in
  let la := Pos.latitude a * rad in
  let lb := Pos.latitude b * rad in
  let s1 := Math_sin (dLat / 2) in
  let s2 := Math_sin (dLon / 2) in
  let h := s1 * s1 + Math_cos la * Math_cos lb * s2 * s2 in
  R * 2 * Math_atan2 (Math_sqrt h) (Math_sqrt (1 - h)).

Definition headingDeg (a b : Pos.pos) : Q :=
  let rad := Math_PI / 180 in
  let y := Math_sin ((Pos.longitude b - Pos.longitude a) * rad)
           * Math_cos (Pos.latitude b * rad) in
  let x := Math_cos (Pos.latitude a * rad) * Math_sin (Pos.latitude b * rad)
           - Math_sin (Pos.latitude a * rad) * Math_cos (Pos.latitude b * rad)
             * Math_cos ((Pos.longitude b - Pos.longitude a) * rad) in
  let brad := Math_atan2 y x in
  jsmod (brad * 180 / Math_PI + 360) 360.

(** *** Small helpers (lines 77, 108, 109) *)

Definition lowPass (prev cur alpha : Q) : Q :=
  (alpha * cur) + ((1 - alpha) * prev).

Definition rebuildSpeedFromDelta (dMeters dtMs : Q) : Q :=
  if dtMs <=? 0 then 0
  else let v := dMeters / (dtMs / 1000) in v * 3.6.

(** [marks = {}; MILESTONES.forEach(m => marks[m] = null)] *)
Definition resetMarks : gmap Z (option Mark.mark) :=
  fold_left (fun mk m => <[m := None]> mk) MILESTONES ∅.

(** [marks[m]] in a truthiness test: a capture if there is one, nothing
    for [null] and for a missing key. *)
Definition markAt (mk : gmap Z (option Mark.mark)) (m : Z) : option Mark.mark :=
  match mk !! m with
  | Some (Some v) => Some v
  | _ => None
  end.

(** [{latitude: c.latitude, longitude: c.longitude}] *)
Definition posOf (c : Coords.coords) : Pos.pos :=
  Pos.mk (Coords.latitude c) (Coords.longitude c).

(** [if(watchId){ clearWatch(watchId); watchId = null; }]: an id of [0]
    is falsy and stays. *)
Definition clearWatch (w : option Z) : option Z :=
  match w with
  | Some id => if Z.eqb id 0 then w else None
  | None => None
  end.

(** *** finishRun (lines 149-183) *)

Definition finishRun (e : PosEvent) (st : State) : State :=
  if finished st then st
  else
    let mk := marks st in
    let last :=
      {| rr_mode := match modeValue e with Some v => v | None => "" end;
         rr_date := dateNow e;
         rr_peak := peakSpeed st;
         rr_marks := mk;
         rr_d20 := Mark.time <$> markAt mk 20;
         rr_d100 := Mark.time <$> markAt mk 100;
         rr_d201 := Mark.time <$> markAt mk 201;
         rr_d402 := Mark.time <$> markAt mk 402;
         rr_s20 := Mark.speed <$> markAt mk 20;
         rr_s100 := Mark.speed <$> markAt mk 100;
         rr_s201 := Mark.speed <$> markAt mk 201;
         rr_s402 := Mark.speed <$> markAt mk 402;
         rr_distance := cumulative st;
         rr_rollout := rolloutChecked e |} in
    set_graphSamples [] (set_samples []
      (set_watchId (clearWatch (watchId st))
        (set_lastRun (Some last)
          (set_status StFinish
            (set_armed false (set_running false (set_finished true st))))))).

(** *** onPos, first half (lines 189-242): speed fusion

    The half that every unfinished call executes, whatever the lifecycle
    state: reconstruction, ghost floor, Kalman, low pass, buffers, peak. *)

(** [dtMs] (lines 197-198): gap to the newest buffered sample, [0] when
    the buffer is empty. *)
Definition dtMsOf (st : State) (e : PosEvent) : Q :=
  match last (samples st) with
  | Some s => now e - Sample.t s
  | None => 0
  end.

(** [measuredSpeedKmh] as first assigned (lines 193-194): the direct
    reading in km/h, if the fix carries one. *)
Definition directKmh (e : PosEvent) : option Q :=
  (fun v => v * 3.6) <$> Coords.speed (coords e).

(** [headingOk] (lines 203-207). *)
Definition headingOkOf (lastHeading headingNow : option Q) : bool :=
  match lastHeading, headingNow with
  | Some lh, Some hn => negb (angDiff lh hn >? HEADING_MAX_DEG)
  | _, _ => true
  end.

(** Lines 193-213.  Returns [measuredSpeedKmh] as it stands after the
    block, and [lastHeading] as the block leaves it. *)
Definition rebuild (st : State) (e : PosEvent) : option Q * option Q :=
  let c := coords e in
  let measuredSpeedKmh := directKmh e in
  let dtMs := dtMsOf st e in
  match lastPos st with
  | Some lp =>
      if truthy (Coords.latitude c) && truthy (Coords.longitude c) then
        let dDelta := hav lp (posOf c) in
        let headingNow :=
          match lastHeading st with
          | Some _ => Some (headingDeg lp (posOf c))
          | None => None
          end in
        let headingOk := headingOkOf (lastHeading st) headingNow in
        let slow :=
          match measuredSpeedKmh with
          | None => true
          | Some v => v <? 0.5
          end in
        if slow && (dtMs >? 0) && (dtMs <=? REBUILD_SPEED_MAX_DT) && headingOk
        then (Some (rebuildSpeedFromDelta dDelta dtMs), headingNow)
        else (measuredSpeedKmh, headingNow)
      else (measuredSpeedKmh, lastHeading st)
  | None => (measuredSpeedKmh, lastHeading st)
  end.

(** Line 215: the ghost-speed floor. *)
Definition ghost (m : option Q) : option Q :=
  match m with
  | Some v => if v <? GHOST_THRESHOLD_KMH then Some 0 else Some v
  | None => None
  end.

(** The measurement in m/s handed to [kalman.update] (lines 218-220), if
    there is one. *)
Definition kalmanInput (st : State) (e : PosEvent) : option Q :=
  (fun m => m / 3.6) <$> ghost (fst (rebuild st e)).

(** [smoothKmh] and the filter after lines 217-224. *)
Definition kalmanStep (st : State) (e : PosEvent) : Kalman.t * Q :=
  match kalmanInput st e with
  | Some measMs =>
      let k := Kalman.update (kalman st) measMs in (k, Kalman.x k * 3.6)
  | None =>
      (kalman st,
       match last (samples st) with Some s => Sample.speed s | None => 0 end)
  end.

(** [smoothed] (lines 226-227). *)
Definition smoothedOf (st : State) (e : PosEvent) : Q :=
  let smoothKmh := snd (kalmanStep st e) in
  let lastSmooth :=
    match last (samples st) with
    | Some s => Sample.speed s
    | None => smoothKmh
    end in
  lowPass lastSmooth smoothKmh SPEED_SMOOTH_ALPHA.

(** The rolling buffer after the push and the 3000 ms prune (lines 230-232). *)
Definition pushed (st : State) (e : PosEvent) : list Sample.sample :=
  List.filter (fun s => now e - Sample.t s <=? 3000)
              (samples st ++ [Sample.mk (now e) (smoothedOf st e)]).

Definition fuse (st0 : State) (e : PosEvent) : State :=
  let measuredSpeedKmh := ghost (fst (rebuild st0 e)) in
  let headingAfter := snd (rebuild st0 e) in
  let kalmanAfter := fst (kalmanStep st0 e) in
  let smoothed := smoothedOf st0 e in
  let graph := graphSamples st0 ++ [Sample.mk (now e) smoothed] in
  let st := set_lastHeading headingAfter st0 in
  let st := set_kalman kalmanAfter st in
  let st := set_samples (pushed st0 e) st in
  let st := set_graphSamples
              (if (2000 <? length graph)%nat then tail graph else graph) st in
  match measuredSpeedKmh with
  | Some m => if m >? peakSpeed st then set_peakSpeed m st else st
  | None => st
  end.

(** *** onPos, second half (lines 244-337): run lifecycle *)

(** Lines 264-277: the heading-gated distance of this segment and the
    bearing memory afterwards. *)
Definition gatedDelta (st : State) (c : Coords.coords) : Q * option Q :=
  match lastPos st with
  | Some lp =>
      let dtmp := hav lp (posOf c) in
      let hNow := headingDeg lp (posOf c) in
      let d :=
        match lastHeading st with
        | Some lh => if angDiff lh hNow <=? HEADING_MAX_DEG then dtmp else 0
        | None => dtmp
        end in
      (d, Some hNow)
  | None => (0, lastHeading st)
  end.

(** [ready] (lines 281-282). *)
Definition startReady (buf : list Sample.sample) (nowMs : Q) : bool :=
  let recent :=
    List.filter (fun s => nowMs - Sample.t s <=? START_WINDOW_MS) buf in
  (0 <? length recent)%nat
  && forallb (fun s => Sample.speed s >=? START_THRESHOLD_KMH) recent.

(** [ready] as fix [e] finds it in state [st]: over the buffer with the
    fix already pushed and the buffer pruned, at the second clock reading. *)
Definition readyAt (st : State) (e : PosEvent) : bool :=
  startReady (pushed st e) (nowMs e).

(** An armed machine with its start position fixed that has not started. *)
Definition waiting (sp : Pos.pos) (st : State) : Prop :=
  finished st = false /\ armed st = true /\ running st = false
  /\ startPos st = Some sp.

(** [rolloutOffset] (line 306). *)
Definition rolloutOffsetOf (e : PosEvent) : Q :=
  if rolloutChecked e then ROLL_OUT_M else 0.

(** One turn of the milestone loop (lines 309-312). *)
Definition captureMark (cum off elapsed smoothed : Q)
    (mk : gmap Z (option Mark.mark)) (m : Z) : gmap Z (option Mark.mark) :=
  if negb (bool_decide (is_Some (markAt mk m))) && (cum >=? inject_Z m - off)
  then <[m := Some (Mark.mk elapsed smoothed)]> mk
  else mk.

(** [for(const m of MILESTONES) ...] (lines 308-313). *)
Definition captureMarks (cum off elapsed smoothed : Q)
    (mk : gmap Z (option Mark.mark)) : gmap Z (option Mark.mark) :=
  fold_left (captureMark cum off elapsed smoothed) MILESTONES mk.

(** [samples.slice(-10)]. *)
Definition lastTen (buf : list Sample.sample) : list Sample.sample :=
  drop (length buf - 10) buf.

(** The mode table (lines 325-333): does one of its rows ask to finish? *)
Definition modeStop (mode : string) (cum off peak : Q)
    (buf : list Sample.sample) : bool :=
  if String.eqb mode "201" && (cum >=? 201 - off) then true
  else if String.eqb mode "402" && (cum >=? 402 - off) then true
  else if String.eqb mode "0-100" && (peak >=? 100) then true
  else if String.eqb mode "0-140" && (peak >=? 140) then true
  else if String.eqb mode "60-100" then
    let lastSpeeds := Sample.speed <$> lastTen buf in
    existsb (fun s => s >=? 60) lastSpeeds
    && existsb (fun s => s >=? 100) lastSpeeds
  else false.

(** [(now - startTime) / 1000]; a [null] start time counts as [0] in the
    subtraction. *)
Definition elapsedOf (st : State) (e : PosEvent) : Q :=
  (now e - match startTime st with Some s => s | None => 0 end) / 1000.

(** Lines 295-313: the state of a running machine once distance, time
    and milestones have been brought up to date, before the stop
    conditions are looked at. *)
Definition accumulated (e : PosEvent) (smoothed : Q) (st : State) : State :=
  let d := fst (gatedDelta st (coords e)) in
  let st := set_lastHeading (snd (gatedDelta st (coords e))) st in
  let st := set_cumulative (cumulative st + d) st in
  let elapsed := elapsedOf st e in
  let rolloutOffset := rolloutOffsetOf e in
  set_marks (captureMarks (cumulative st) rolloutOffset elapsed smoothed
                          (marks st)) st.

(** Lines 316-334: the stop conditions.  Every one of them does the same
    thing ([finishRun(); lastPos = ...; return]), so they are gathered
    into one test. *)
Definition stops (e : PosEvent) (st : State) : bool :=
  if bool_decide (is_Some (markAt (marks st) 402)) then true
  else
    match modeValue e with
    | Some mode => modeStop mode (cumulative st) (rolloutOffsetOf e)
                            (peakSpeed st) (samples st)
    | None => false
    end.

Definition lifecycle (e : PosEvent) (smoothed : Q) (st : State) : State :=
  let c := coords e in
  if negb (armed st) then set_lastPos (Some (posOf c)) st
  else
    match startPos st with
    | None =>
        (* ensure GPS lock *)
        if Coords.accuracy c <=? 50 then
          let st := set_startPos (Some (posOf c)) st in
          let st := set_lastPos (Some (posOf c)) st in
          let st := set_lastHeading None st in
          let st := set_status StWaitingThrottle st in
          set_lastPos (Some (posOf c)) st
        else
          let st := set_status StWaitingAccuracy st in
          set_lastPos (Some (posOf c)) st
    | Some _ =>
        if negb (running st) then
          (* delta distance (heading filter): only the bearing memory of
             it survives on this path *)
          let st := set_lastHeading (snd (gatedDelta st c)) st in
          (* start detection *)
          if startReady (samples st) (nowMs e) then
            let st := set_running true st in
            let st := set_startTime (Some (now e)) st in
            let st := set_cumulative 0 st in
            let st := set_peakSpeed smoothed st in
            let st := set_samples [Sample.mk (now e) smoothed] st in
            let st := set_marks resetMarks st in
            let st := set_status StRunning st in
            set_lastPos (Some (posOf c)) st
          else
            let st := set_status StWaitingThrottle st in
            set_lastPos (Some (posOf c)) st
        else
          (* RUNNING: accumulate distance/time, then STOP conditions *)
          let st := accumulated e smoothed st in
          if stops e st
          then set_lastPos (Some (posOf c)) (finishRun e st)
          else set_lastPos (Some (posOf c)) st
    end.

(** *** onPos (lines 186-337) *)

Definition onPos (st : State) (e : PosEvent) : State :=
  if finished st then st
  else lifecycle e (smoothedOf st e) (fuse st e).

(** Feeding a sequence of fixes, oldest first. *)
Definition feed (st : State) (es : list PosEvent) : State :=
  fold_left onPos es st.

(** *** Commands (lines 340-373) and start-up (lines 444-447) *)

(** The part of [resetUI] that touches the state (line 91). *)
Definition resetUI (st : State) : State :=
  let st := set_samples [] st in
  let st := set_graphSamples [] st in
  set_kalman (Kalman.reset (kalman st) 0) st.

(** Everything [arm] (both branches) and [resetAll] clear in common. *)
Definition clearRun (st : State) : State :=
  let st := set_startPos None st in
  let st := set_lastPos None st in
  let st := set_lastHeading None st in
  let st := set_cumulative 0 st in
  let st := set_startTime None st in
  let st := set_peakSpeed 0 st in
  let st := set_samples [] st in
  let st := set_graphSamples [] st in
  set_marks resetMarks st.

(** Whether [navigator.geolocation.clearWatch(watchId)] inside
    [if(watchId){ ... }] throws: the handle is truthy and [navigator] has
    no [geolocation] to call [clearWatch] on. *)
Definition clearWatchThrows (geo : bool) (w : option Z) : bool :=
  match w with
  | Some id => negb (Z.eqb id 0) && negb geo
  | None => false
  end.

(** [arm()]; [geo] is ['geolocation' in navigator] at the time of the call
    and [id] the handle that [watchPosition] returns.  In the disarming
    branch the call to [clearWatch] (line 347) is not guarded by the
    geolocation test: where it throws, the handler ends there and what it
    has assigned so far stays. *)
Definition arm (geo : bool) (id : Z) (st : State) : State :=
  if armed st then
    let st := set_armed false st in
    let st := set_running false st in
    let st := set_finished false st in
    let st := clearRun st in
    if clearWatchThrows geo (watchId st) then st
    else
      let st := set_watchId (clearWatch (watchId st)) st in
      let st := set_status StIdle st in
      resetUI st
  else if negb geo then st
  else
    let st := set_running false st in
    let st := set_armed true st in
    let st := set_finished false st in
    let st := clearRun st in
    let st := set_status StRequestingGPS st in
    set_watchId (Some id) st.

(** [stop()] and [resetAll()] take no [geo]: they are modelled in a
    browser that has [navigator.geolocation], where their [clearWatch]
    succeeds. *)
Definition stop (st : State) : State :=
  let st := set_watchId (clearWatch (watchId st)) st in
  let st := set_running false st in
  let st := set_armed false st in
  let st := set_finished false st in
  set_status StStopped st.

Definition resetAll (st : State) : State :=
  let st := set_watchId (clearWatch (watchId st)) st in
  let st := set_armed false st in
  let st := set_running false st in
  let st := set_finished false st in
  let st := clearRun st in
  let st := resetUI st in
  set_status StIdle st.

(** The closure variables after the script has loaded. *)
Definition init : State :=
  {| watchId := None; armed := false; running := false; finished := false;
     startPos := None; lastPos := None; lastHeading := None;
     cumulative := 0; startTime := None; peakSpeed := 0;
     samples := []; graphSamples := [];
     marks := resetMarks; kalman := Kalman.reset Kalman.init 0;
     status := StIdle; lastRun := None |}.

(** What can happen to the machine: a button, or a fix from the watch. *)
Inductive Command : Type :=
| CmdArm (geo : bool) (id : Z)
| CmdStop
| CmdReset
| CmdFix (e : PosEvent).

Definition exec (st : State) (c : Command) : State :=
  match c with
  | CmdArm geo id => arm geo id st
  | CmdStop => stop st
  | CmdReset => resetAll st
  | CmdFix e => onPos st e
  end.

(** States the machine can be in, from start-up on. *)
Inductive Reachable : State -> Prop :=
| Reachable_init : Reachable init
| Reachable_exec st c : Reachable st -> Reachable (exec st c).

(** An armed machine that has not started has no distance yet. *)
Definition idleZero (st : State) : Prop :=
  armed st = true -> running st = false -> cumulative st = 0.

End Program.

(** ** estimateWHPFromMarker (lines 410-421) *)

(** The object [{ hp, powerW, v, t }] it returns. *)
Module Estimate.
Record estimate : Type := mk { hp : Q; powerW : Q; v : Q; t : Q }.
End Estimate.

(** [massKg] is the rider-plus-machine mass typed by the user, [marker] the
    milestone chosen for the estimate; [null] is [None]. *)
Definition estimateWHPFromMarker (massKg : Q) (marker : Z) (st : State)
    : option Estimate.estimate :=
  match lastRun st with
  | None => None
  | Some r =>
      match markAt (rr_marks r) marker with
      | None => None
      | Some mk =>
          if negb (truthy (Mark.time mk)) || negb (truthy (Mark.speed mk))
          then None
          else
            let v := Mark.speed mk / 3.6 in
            let t := Mark.time mk in
            if (t <=? 0) || (v <=? 0) then None
            else
              let energy := 0.5 * massKg * v * v in
              let powerW := energy / t in
              let hp := powerW / 745.7 in
              Some (Estimate.mk hp powerW v t)
      end
  end.

(** ** The earlier iteration (second IIFE of the same file, lines 461-987)

    It has no [finished] flag.  Its [onPos] (lines 680-860) is the handler
    above without the early return, and its [finishRun] (lines 654-677)
    neither sets a flag nor empties the buffers; everything else of the
    handler is the same text. *)
Module Earlier.
Section Program.

Context `{MathLib}.

Definition finishRun (e : PosEvent) (st : State) : State :=
  let st := set_running false st in
  let st := set_armed false st in
  let st := set_status StFinish st in
  let mk := marks st in
  let last :=
    {| rr_mode := match modeValue e with Some v => v | None => "" end;
       rr_date := dateNow e;
       rr_peak := peakSpeed st;
       rr_marks := mk;
       rr_d20 := Mark.time <$> markAt mk 20;
       rr_d100 := Mark.time <$> markAt mk 100;
       rr_d201 := Mark.time <$> markAt mk 201;
       rr_d402 := Mark.time <$> markAt mk 402;
       rr_s20 := Mark.speed <$> markAt mk 20;
       rr_s100 := Mark.speed <$> markAt mk 100;
       rr_s201 := Mark.speed <$> markAt mk 201;
       rr_s402 := Mark.speed <$> markAt mk 402;
       rr_distance := cumulative st;
       rr_rollout := rolloutChecked e |} in
  let st := set_lastRun (Some last) st in
  set_watchId (clearWatch (watchId st)) st.

Definition lifecycle (e : PosEvent) (smoothed : Q) (st : State) : State :=
  let c := coords e in
  if negb (armed st) then set_lastPos (Some (posOf c)) st
  else
    match startPos st with
    | None =>
        if Coords.accuracy c <=? 50 then
          let st := set_startPos (Some (posOf c)) st in
          let st := set_lastPos (Some (posOf c)) st in
          let st := set_lastHeading None st in
          let st := set_status StWaitingThrottle st in
          set_lastPos (Some (posOf c)) st
        else
          let st := set_status StWaitingAccuracy st in
          set_lastPos (Some (posOf c)) st
    | Some _ =>
        if negb (running st) then
          let st := set_lastHeading (snd (gatedDelta st c)) st in
          if startReady (samples st) (nowMs e) then
            let st := set_running true st in
            let st := set_startTime (Some (now e)) st in
            let st := set_cumulative 0 st in
            let st := set_peakSpeed smoothed st in
            let st := set_samples [Sample.mk (now e) smoothed] st in
            let st := set_marks resetMarks st in
            let st := set_status StRunning st in
            set_lastPos (Some (posOf c)) st
          else
            let st := set_status StWaitingThrottle st in
            set_lastPos (Some (posOf c)) st
        else
          let st := accumulated e smoothed st in
          if stops e st
          then set_lastPos (Some (posOf c)) (finishRun e st)
          else set_lastPos (Some (posOf c)) st
    end.

Definition onPos (st : State) (e : PosEvent) : State :=
  lifecycle e (smoothedOf st e) (fuse st e).

End Program.
End Earlier.

(** ** Predicates used to state invariants *)

(** Milestone captures come in order of distance: a milestone holds a
    capture only if every shorter one does. *)
Definition marksOrdered (mk : gmap Z (option Mark.mark)) : Prop :=
  forall a b : Z,
    a ∈ MILESTONES -> b ∈ MILESTONES -> (a <= b)%Z ->
    is_Some (markAt mk b) -> is_Some (markAt mk a).

(** The filter carries the configured noise terms and a covariance between
    its fixed point [0.4] and its reset value [1]. *)
Definition kalmanSettled (k : Kalman.t) : Prop :=
  Kalman.q k = KALMAN_Q /\ Kalman.r k = KALMAN_R
  /\ 0.4 <= Kalman.p k /\ Kalman.p k <= 1.

(** A running machine is armed, unfinished and locked, and remembers a
    position and a bearing; an armed machine with a start position
    remembers a position. *)
Definition runSettled (st : State) : Prop :=
  (armed st = true -> is_Some (startPos st) -> is_Some (lastPos st))
  /\ (running st = true ->
      armed st = true /\ finished st = false /\ is_Some (startPos st)
      /\ is_Some (lastHeading st)).

(** ** A rational stand-in for the builtins, and sample inputs

    Used only to run the handler on concrete data: every theorem below
    holds for any [MathLib].  Sine, cosine and arctangent are Taylor
    polynomials around [0] (the sample inputs keep the arguments small), the
    square root is the integer square root on twelve decimals, and every
    result is cut to twelve decimals so that the numbers stay small. *)
Module ApproxMath.

Definition round12 (a : Q) : Q :=
  Qfloor (a * 1000000000000) # 1000000000000.

Definition PI : Q := 3.141592653590.

Definition sin (a : Q) : Q :=
  round12 (a - a ^ 3 / 6 + a ^ 5 / 120 - a ^ 7 / 5040).

Definition cos (a : Q) : Q :=
  round12 (1 - a ^ 2 / 2 + a ^ 4 / 24 - a ^ 6 / 720).

Definition sqrt (a : Q) : Q :=
  if a <=? 0 then 0
  else Z.sqrt (Qfloor (a * 1000000000000000000000000)) # 1000000000000.

Definition atan (a : Q) : Q :=
  round12 (a - a ^ 3 / 3 + a ^ 5 / 5 - a ^ 7 / 7).

Definition atan2 (y x : Q) : Q :=
  if 0 <? x then atan (y / x)
  else if x <? 0 then (if 0 <=? y then atan (y / x) + PI else atan (y / x) - PI)
  else if 0 <? y then PI / 2
  else if y <? 0 then - (PI / 2)
  else 0.

Definition lib : MathLib :=
  {| Math_PI := PI; Math_sin := sin; Math_cos := cos;
     Math_sqrt := sqrt; Math_atan2 := atan2 |}.

End ApproxMath.

Module Samples.

#[local] Existing Instance ApproxMath.lib.

(** A fix, with everything else the handler reads at that moment. *)
Definition fixAt (lat lon acc : Q) (spd : option Q) (t : Q)
    (rollout : bool) (mode : string) : PosEvent :=
  {| coords := Coords.mk lat lon acc spd;
     now := t; nowMs := t; dateNow := 1700000000000 + t;
     rolloutChecked := rollout; modeValue := Some mode |}.

(** A machine in the middle of a run: armed, locked, running since
    [t = 0], heading north, 15 m covered, last fix at [t = 1000] ms. *)
Definition midRun : State :=
  {| watchId := Some 1%Z; armed := true; running := true; finished := false;
     startPos := Some (Pos.mk (-6.2) 106.8);
     lastPos := Some (Pos.mk (-6.2) 106.8);
     lastHeading := Some 0;
     cumulative := 15; startTime := Some 0; peakSpeed := 40;
     samples := [Sample.mk 1000 40];
     graphSamples := [Sample.mk 1000 40];
     marks := resetMarks; kalman := Kalman.mk 11 0.4 KALMAN_Q KALMAN_R;
     status := StRunning; lastRun := None |}.

(** The next fix of that run, 0.0001 degrees further north (bearing 0). *)
Definition northFix : PosEvent :=
  fixAt (-6.1999) 106.8 5 (Some 11) 2000 false "402".

(** The same fix from a receiver that reports no velocity. *)
Definition northFixNoSpeed : PosEvent :=
  fixAt (-6.1999) 106.8 5 None 2000 false "402".

(** A fix 0.0001 degrees to the south instead (bearing 180): the heading
    flips by 180 degrees against the remembered bearing. *)
Definition southFix : PosEvent :=
  fixAt (-6.2001) 106.8 5 (Some 11) 2000 false "402".

(** The run of [midRun], heading south towards the equator, and a fix
    exactly on the equator from a receiver that reports no velocity. *)
Definition equatorRun : State :=
  set_lastHeading (Some 180) (set_lastPos (Some (Pos.mk 0.0001 109.3)) midRun).

Definition equatorFix : PosEvent := fixAt 0 109.3 5 None 2000 false "402".

(** Freshly armed, no start position yet. *)
Definition armedNoLock : State := arm true 1 init.

(** A fix at 54 km/h with poor accuracy, and the same with good accuracy. *)
Definition poorFix : PosEvent :=
  fixAt (-6.2) 106.8 80 (Some 15) 1000 false "402".

Definition goodFix : PosEvent :=
  fixAt (-6.2) 106.8 5 (Some 15) 1000 false "402".

(** Locked while standing still; then one more standing fix, then a fix
    at 54 km/h. *)
Definition standingFix (t : Q) : PosEvent :=
  fixAt (-6.2) 106.8 5 (Some 0) t false "402".

Definition locked : State := onPos armedNoLock (standingFix 1000).

Definition launchFix : PosEvent :=
  fixAt (-6.1999) 106.8 5 (Some 15) 2000 false "402".

(** [midRun] with 395 m covered, and its next fix in mode 60-100. *)
Definition nearFinish : State := set_cumulative 395 midRun.

Definition northFix60 : PosEvent :=
  fixAt (-6.1999) 106.8 5 (Some 11) 2000 false "60-100".

(** A run whose buffer still holds one sample at 110 km/h followed by
    twelve at 50 km/h (the mode was another one when it was taken), and its
    next fix in mode 60-100. *)
Definition staleFast : State :=
  set_kalman (Kalman.mk 13.9 0.4 KALMAN_Q KALMAN_R)
    (set_samples
       (Sample.mk 0 110
        :: map (fun i => Sample.mk (inject_Z (Z.of_nat i) * 100) 50) (seq 1 12))
       midRun).

Definition slowFix60 : PosEvent :=
  fixAt (-6.1999) 106.8 5 (Some 13.9) 1300 false "60-100".

(** A run whose newest sample is at 110 km/h. *)
Definition fastRun : State :=
  set_kalman (Kalman.mk 30.5 0.4 KALMAN_Q KALMAN_R)
    (set_samples [Sample.mk 1000 110] midRun).

Definition fastFix60 : PosEvent :=
  fixAt (-6.1999) 106.8 5 (Some 30.5) 2000 false "60-100".

End Samples.

(** The stand-in with the arctangent clamped to [[-PI, PI]], the range of
    [Math.atan2]. *)
Module BoundedMath.

Definition atan2 (y x : Q) : Q :=
  Qmax (- ApproxMath.PI) (Qmin ApproxMath.PI (ApproxMath.atan2 y x)).

Definition lib : MathLib :=
  {| Math_PI := ApproxMath.PI; Math_sin := ApproxMath.sin;
     Math_cos := ApproxMath.cos; Math_sqrt := ApproxMath.sqrt;
     Math_atan2 := atan2 |}.

End BoundedMath.

Module MoreSamples.

Import Samples.
#[local] Existing Instance ApproxMath.lib.

(** [equatorRun] remembering a northward bearing: the fix on the equator,
    due south of the last position, is a turn of 180 degrees. *)
Definition equatorTurn : State := set_lastHeading (Some 0) equatorRun.

(** [midRun] after [stop]. *)
Definition stopped : State := stop midRun.

(** A fix at 72 km/h, above the 40 km/h peak of [midRun]. *)
Definition fasterFix : PosEvent :=
  fixAt (-6.1999) 106.8 5 (Some 20) 2000 false "402".

(** A finished run that captured 201 m after 9.5 s at 95 km/h. *)
Definition recorded : State :=
  finishRun northFix
    (set_marks (<[201%Z := Some (Mark.mk 9.5 95)]> resetMarks) midRun).

(** [locked] after one more standing fix and the fix at 54 km/h that
    starts the run. *)
Definition launched : State :=
  exec (exec locked (CmdFix (standingFix 1500))) (CmdFix launchFix).

End MoreSamples.

(** Keep [simpl] from computing inside the larger definitions. *)
#[global] Arguments resetMarks : simpl never.
#[global] Arguments captureMarks : simpl never.
#[global] Arguments captureMark : simpl never.
#[global] Arguments gatedDelta : simpl never.
#[global] Arguments startReady : simpl never.
#[global] Arguments modeStop : simpl never.
#[global] Arguments rebuild : simpl never.
#[global] Arguments kalmanStep : simpl never.
#[global] Arguments smoothedOf : simpl never.
#[global] Arguments pushed : simpl never.
#[global] Arguments accumulated : simpl never.
#[global] Arguments stops : simpl never.
#[global] Arguments hav : simpl never.
#[global] Arguments headingDeg : simpl never.
#[global] Arguments angDiff : simpl never.
#[global] Arguments jsmod : simpl never.
#[global] Arguments elapsedOf : simpl never.

(** ** Facts about the number helpers *)

Lemma Qltb_lt (a b : Q) : (a <? b) = true <-> a < b.
Proof.
  unfold Qltb. rewrite negb_true_iff, <- not_true_iff_false, Qle_bool_iff.
  split; [apply Qnot_le_lt | apply Qlt_not_le].
Qed.

Lemma Qltb_ge (a b : Q) : (a <? b) = false <-> b <= a.
Proof.
  unfold Qltb. rewrite negb_false_iff. apply Qle_bool_iff.
Qed.

Lemma Qleb_gt (a b : Q) : (a <=? b) = false <-> b < a.
Proof.
  rewrite <- not_true_iff_false, Qle_bool_iff.
  split; [apply Qnot_le_lt | apply Qlt_not_le].
Qed.

Lemma Qfloor_unique (y : Q) (k : Z) :
  inject_Z k <= y -> y < inject_Z (k + 1) -> Qfloor y = k.
Proof.
  intros Hlo Hhi.
  pose proof (Qfloor_le y) as Hf. pose proof (Qlt_floor y) as Hc.
  assert (inject_Z k < inject_Z (Qfloor y + 1)) as H1 by (eapply Qle_lt_trans; eauto).
  assert (inject_Z (Qfloor y) < inject_Z (k + 1)) as H2 by (eapply Qle_lt_trans; eauto).
  rewrite <- Zlt_Qlt in H1, H2. lia.
Qed.

Lemma Qtrunc_nonneg (a : Q) : 0 <= a -> Qtrunc a = Qfloor a.
Proof.
  destruct a as [n d]. unfold Qle, Qtrunc, Qfloor. simpl. intros H.
  apply Z.quot_div_nonneg; lia.
Qed.

Lemma jsmod_360 (a : Q) (k : Z) :
  0 <= a -> inject_Z k * 360 <= a -> a < inject_Z k * 360 + 360 ->
  jsmod a 360 == a - 360 * inject_Z k.
Proof.
  intros H0 Hlo Hhi. unfold jsmod.
  assert (0 <= a / 360) as Hq.
  { apply Qle_shift_div_l; [reflexivity | lra]. }
  rewrite (Qtrunc_nonneg _ Hq).
  rewrite (Qfloor_unique (a / 360) k); [reflexivity | |].
  - apply Qle_shift_div_l; [reflexivity | lra].
  - apply Qlt_shift_div_r; [reflexivity |].
    rewrite inject_Z_plus. unfold inject_Z at 2. lra.
Qed.

Lemma Qtrunc_comp (a b : Q) : 0 <= a -> a == b -> Qtrunc a = Qtrunc b.
Proof.
  intros Ha Hab. rewrite !Qtrunc_nonneg; [by apply Qfloor_comp | by rewrite <- Hab | done].
Qed.

(** ** The Kalman filter *)

Lemma Kalman_update_p (k : Kalman.t) (z : Q) :
  0 < Kalman.p k + Kalman.q k + Kalman.r k ->
  Kalman.p (Kalman.update k z)
  == Kalman.r k * (Kalman.p k + Kalman.q k)
     / ((Kalman.p k + Kalman.q k) + Kalman.r k).
Proof.
  intros Hpos. unfold Kalman.update, Kalman.predict. simpl.
  field. intros Hz. rewrite Hz in Hpos. by apply Qlt_irrefl in Hpos.
Qed.

Lemma Kalman_update_bounds (k : Kalman.t) (z : Q) :
  0 < Kalman.p k -> 0 < Kalman.q k -> 0 < Kalman.r k ->
  0 < Kalman.p (Kalman.update k z) /\ Kalman.p (Kalman.update k z) < Kalman.r k.
Proof.
  intros Hp Hq Hr.
  assert (0 < Kalman.p k + Kalman.q k + Kalman.r k) as Hs by lra.
  rewrite (Kalman_update_p k z Hs). split.
  - apply Qlt_shift_div_l; [exact Hs |]. nra.
  - apply Qlt_shift_div_r; [exact Hs |]. nra.
Qed.

Lemma Kalman_gain_bounds (k : Kalman.t) :
  0 < Kalman.p k -> 0 < Kalman.q k -> 0 < Kalman.r k ->
  0 < Kalman.gain k /\ Kalman.gain k < 1.
Proof.
  intros Hp Hq Hr. unfold Kalman.gain, Kalman.predict. simpl.
  assert (0 < Kalman.p k + Kalman.q k + Kalman.r k) as Hs by lra. split.
  - apply Qlt_shift_div_l; [exact Hs | lra].
  - apply Qlt_shift_div_r; [exact Hs | lra].
Qed.

Lemma Kalman_update_noise (k : Kalman.t) (z : Q) :
  Kalman.q (Kalman.update k z) = Kalman.q k
  /\ Kalman.r (Kalman.update k z) = Kalman.r k.
Proof. split; reflexivity. Qed.

Lemma Kalman_fold_positive (zs : list Q) (k : Kalman.t) :
  0 < Kalman.p k -> 0 < Kalman.q k -> 0 < Kalman.r k ->
  0 < Kalman.p (fold_left Kalman.update zs k)
  /\ Kalman.q (fold_left Kalman.update zs k) = Kalman.q k
  /\ Kalman.r (fold_left Kalman.update zs k) = Kalman.r k.
Proof.
  revert k. induction zs as [| z zs IH]; intros k Hp Hq Hr; simpl.
  - done.
  - destruct (Kalman_update_bounds k z Hp Hq Hr) as [Hp' _].
    destruct (IH (Kalman.update k z) Hp' Hq Hr) as (H1 & H2 & H3).
    by rewrite H2, H3.
Qed.

(** C10.  With positive covariance, process noise and measurement noise,
    one [update] leaves the covariance at [r*(p+q)/((p+q)+r)], which is
    strictly between [0] and [r]; the gain it uses is strictly between [0]
    and [1]; and the covariance is still strictly positive after any
    sequence of [update] calls. *)
Theorem kalman_covariance_positive (k : Kalman.t) :
  0 < Kalman.p k -> 0 < Kalman.q k -> 0 < Kalman.r k ->
  (forall z : Q,
      Kalman.p (Kalman.update k z)
      == Kalman.r k * (Kalman.p k + Kalman.q k)
         / ((Kalman.p k + Kalman.q k) + Kalman.r k)
      /\ 0 < Kalman.p (Kalman.update k z)
      /\ Kalman.p (Kalman.update k z) < Kalman.r k)
  /\ (0 < Kalman.gain k /\ Kalman.gain k < 1)
  /\ (forall zs : list Q, 0 < Kalman.p (fold_left Kalman.update zs k)).
Proof.
  intros Hp Hq Hr. repeat split.
  - apply Kalman_update_p. lra.
  - by apply Kalman_update_bounds.
  - by apply Kalman_update_bounds.
  - by apply Kalman_gain_bounds.
  - by apply Kalman_gain_bounds.
  - intros zs. by apply Kalman_fold_positive.
Qed.

Lemma kalman_covariance_positive_witness :
  0 < Kalman.p Kalman.init /\ 0 < Kalman.p (Kalman.update Kalman.init 5)
  /\ Kalman.gain Kalman.init < 1.
Proof.
  pose proof (kalman_covariance_positive Kalman.init) as H.
  assert (0 < Kalman.p Kalman.init) as Hp by reflexivity.
  assert (0 < Kalman.q Kalman.init) as Hq by reflexivity.
  assert (0 < Kalman.r Kalman.init) as Hr by reflexivity.
  destruct (H Hp Hq Hr) as (Hu & (_ & Hg) & _).
  destruct (Hu 5) as (_ & Hpos & _).
  exact (conj Hp (conj Hpos Hg)).
Defined.

(** ** The minimal-angle expression *)

Lemma Qabs_eq_or_opp (u v : Q) : u == v \/ u == - v -> Qabs u == Qabs v.
Proof.
  intros [E | E]; rewrite E; [reflexivity | apply Qabs_opp].
Qed.

Local Ltac solve_inj := unfold inject_Z; simpl; lra.

(** On the range the program feeds it, [(x % 360) - 180] takes one of
    three shapes. *)
Lemma wrap_cases (x : Q) :
  180 < x -> x < 900 ->
  (x < 360 /\ jsmod x 360 - 180 == x - 180)
  \/ (360 <= x /\ x < 720 /\ jsmod x 360 - 180 == x - 540)
  \/ (720 <= x /\ jsmod x 360 - 180 == x - 900).
Proof.
  intros Hlo Hhi.
  destruct (Qlt_le_dec x 360) as [H1 | H1]; [left | right].
  - split; [exact H1 |].
    rewrite (jsmod_360 x 0); [solve_inj | lra | solve_inj | solve_inj].
  - destruct (Qlt_le_dec x 720) as [H2 | H2]; [left | right].
    + split; [exact H1 |]. split; [exact H2 |].
      rewrite (jsmod_360 x 1); [solve_inj | lra | solve_inj | solve_inj].
    + split; [exact H2 |].
      rewrite (jsmod_360 x 2); [solve_inj | lra | solve_inj | solve_inj].
Qed.

(** C8.  For bearings in [[0, 360)] the minimal-angle expression lies in
    [[0, 180]] and does not change when its arguments are swapped. *)
Theorem angDiff_range_symmetric (a b : Q) :
  0 <= a -> a < 360 -> 0 <= b -> b < 360 ->
  0 <= angDiff a b /\ angDiff a b <= 180 /\ angDiff a b == angDiff b a.
Proof.
  intros Ha0 Ha1 Hb0 Hb1. unfold angDiff.
  assert (180 < b - a + 540) as Hd0 by lra.
  assert (b - a + 540 < 900) as Hd1 by lra.
  assert (180 < a - b + 540) as He0 by lra.
  assert (a - b + 540 < 900) as He1 by lra.
  split; [apply Qabs_nonneg |]. split.
  - apply Qabs_Qle_condition.
    destruct (wrap_cases _ Hd0 Hd1) as [(? & E) | [(? & ? & E) | (? & E)]];
      rewrite E; lra.
  - apply Qabs_eq_or_opp.
    destruct (wrap_cases _ Hd0 Hd1) as [(? & E) | [(? & ? & E) | (? & E)]];
      destruct (wrap_cases _ He0 He1) as [(? & F) | [(? & ? & F) | (? & F)]];
      rewrite E, F;
      first [ left; lra | right; lra ].
Qed.

Lemma angDiff_range_symmetric_witness :
  angDiff 350 10 <= 180 /\ angDiff 350 10 == angDiff 10 350.
Proof.
  assert (0 <= 350) as H1 by (unfold Qle; simpl; lia).
  assert (350 < 360) as H2 by reflexivity.
  assert (0 <= 10) as H3 by (unfold Qle; simpl; lia).
  assert (10 < 360) as H4 by reflexivity.
  destruct (angDiff_range_symmetric 350 10 H1 H2 H3 H4) as (_ & Hr & Hs).
  exact (conj Hr Hs).
Defined.

Example angDiff_wraparound : angDiff 350 10 == 20.
Proof. reflexivity. Qed.

Section Lifecycle.

Context `{MathLib}.

(** ** What the two halves of the handler leave alone *)

Lemma fuse_frame (st : State) (e : PosEvent) :
  armed (fuse st e) = armed st
  /\ running (fuse st e) = running st
  /\ finished (fuse st e) = finished st
  /\ startPos (fuse st e) = startPos st
  /\ lastPos (fuse st e) = lastPos st
  /\ cumulative (fuse st e) = cumulative st
  /\ startTime (fuse st e) = startTime st
  /\ marks (fuse st e) = marks st
  /\ samples (fuse st e) = pushed st e
  /\ lastHeading (fuse st e) = snd (rebuild st e)
  /\ kalman (fuse st e) = fst (kalmanStep st e).
Proof.
  unfold fuse. generalize (pushed st e), (snd (rebuild st e)),
    (fst (kalmanStep st e)), (smoothedOf st e). intros buf lh kal s.
  generalize (ghost (fst (rebuild st e))). intros [m |].
  - destruct (_ >? _); repeat split.
  - repeat split.
Qed.

Lemma finishRun_finished (e : PosEvent) (st : State) :
  finished (finishRun e st) = true.
Proof.
  unfold finishRun. destruct (finished st) eqn:E; [exact E | reflexivity].
Qed.

Lemma finishRun_frame (e : PosEvent) (st : State) :
  cumulative (finishRun e st) = cumulative st
  /\ startTime (finishRun e st) = startTime st
  /\ peakSpeed (finishRun e st) = peakSpeed st
  /\ marks (finishRun e st) = marks st
  /\ kalman (finishRun e st) = kalman st
  /\ lastHeading (finishRun e st) = lastHeading st.
Proof.
  unfold finishRun. destruct (finished st); simpl; repeat split.
Qed.

Lemma finishRun_flags (e : PosEvent) (st : State) :
  finished st = false ->
  armed (finishRun e st) = false /\ running (finishRun e st) = false.
Proof.
  intros Hf. unfold finishRun. rewrite Hf. simpl. done.
Qed.

(** ** Finished is terminal *)

Lemma onPos_finished (st : State) (e : PosEvent) :
  finished st = true -> onPos st e = st.
Proof.
  intros Hf. unfold onPos. by rewrite Hf.
Qed.

Lemma feed_finished (es : list PosEvent) (st : State) :
  finished st = true -> feed st es = st.
Proof.
  intros Hf. induction es as [| e es IH]; simpl; [done |].
  unfold feed in *. simpl. by rewrite (onPos_finished st e Hf).
Qed.

(** An accepted [arm] lifts the freeze. *)
Lemma arm_clears_finished (geo : bool) (id : Z) (st : State) :
  armed st = true \/ geo = true -> finished (arm geo id st) = false.
Proof.
  intros Hg. unfold arm. destruct (armed st).
  - by destruct (clearWatchThrows _ _).
  - destruct Hg as [Hg | Hg]; [done |]. by rewrite Hg.
Qed.

Lemma exec_fixes_finished (cs : list Command) (st : State) :
  finished st = true ->
  (forall c, In c cs -> exists e, c = CmdFix e) ->
  fold_left exec cs st = st.
Proof.
  intros Hf Hfix. induction cs as [| c cs IH]; [done |].
  destruct (Hfix c (or_introl eq_refl)) as [e ->].
  cbn [fold_left exec]. rewrite (onPos_finished st e Hf).
  apply IH. intros c Hc. apply Hfix. by right.
Qed.

(** C1, as the code has it.  [finishRun] always leaves the finished flag
    set.  With the flag set, whatever fixes arrive - one, or any sequence
    of them with no command in between - the handler returns the state it
    was given, so accumulated distance, start time, peak speed and every
    milestone stay as they are.  The freeze ends with the next command
    that clears the flag: [stop], [resetAll], or an [arm] that finds
    geolocation or an armed machine. *)
Theorem finished_state_is_frozen (st : State) (cs : list Command) :
  finished st = true ->
  (forall e0 st0, finished (finishRun e0 st0) = true)
  /\ (forall e, onPos st e = st)
  /\ ((forall c, In c cs -> exists e, c = CmdFix e) ->
      fold_left exec cs st = st
      /\ cumulative (fold_left exec cs st) = cumulative st
      /\ startTime (fold_left exec cs st) = startTime st
      /\ peakSpeed (fold_left exec cs st) = peakSpeed st
      /\ marks (fold_left exec cs st) = marks st)
  /\ finished (exec st CmdStop) = false
  /\ finished (exec st CmdReset) = false
  /\ (forall id, finished (exec st (CmdArm true id)) = false)
  /\ (forall id, armed st = false -> exec st (CmdArm false id) = st).
Proof.
  intros Hf. split; [intros e0 st0; apply finishRun_finished |].
  split; [intros e; by apply onPos_finished |].
  split; [intros Hfix; by rewrite (exec_fixes_finished cs st Hf Hfix) |].
  split; [done |]. split; [done |]. split.
  - intros id. apply arm_clears_finished. by right.
  - intros id Ha. cbn [exec]. unfold arm. by rewrite Ha.
Qed.

(** The flag is the one [finishRun] sets, so the above applies to every
    state [finishRun] returns. *)
Lemma feed_after_finishRun (e0 : PosEvent) (st : State) (es : list PosEvent) :
  feed (finishRun e0 st) es = finishRun e0 st.
Proof. apply feed_finished, finishRun_finished. Qed.

(** ** The lifecycle half, branch by branch *)

Lemma lifecycle_not_armed (e : PosEvent) (s : Q) (st : State) :
  armed st = false ->
  lifecycle e s st = set_lastPos (Some (posOf (coords e))) st.
Proof. intros Ha. unfold lifecycle. by rewrite Ha. Qed.

Lemma lifecycle_no_lock (e : PosEvent) (s : Q) (st : State) :
  armed st = true -> startPos st = None ->
  lifecycle e s st =
    if Coords.accuracy (coords e) <=? 50 then
      set_lastPos (Some (posOf (coords e)))
        (set_status StWaitingThrottle
          (set_lastHeading None
            (set_lastPos (Some (posOf (coords e)))
              (set_startPos (Some (posOf (coords e))) st))))
    else set_lastPos (Some (posOf (coords e))) (set_status StWaitingAccuracy st).
Proof. intros Ha Hs. unfold lifecycle. by rewrite Ha, Hs. Qed.

Lemma lifecycle_waiting (e : PosEvent) (s : Q) (st : State) (sp : Pos.pos) :
  armed st = true -> startPos st = Some sp -> running st = false ->
  lifecycle e s st =
    let st1 := set_lastHeading (snd (gatedDelta st (coords e))) st in
    if startReady (samples st) (nowMs e) then
      set_lastPos (Some (posOf (coords e)))
        (set_status StRunning
          (set_marks resetMarks
            (set_samples [Sample.mk (now e) s]
              (set_peakSpeed s
                (set_cumulative 0
                  (set_startTime (Some (now e)) (set_running true st1)))))))
    else set_lastPos (Some (posOf (coords e))) (set_status StWaitingThrottle st1).
Proof. intros Ha Hs Hr. unfold lifecycle. by rewrite Ha, Hs, Hr. Qed.

Lemma lifecycle_running (e : PosEvent) (s : Q) (st : State) (sp : Pos.pos) :
  armed st = true -> startPos st = Some sp -> running st = true ->
  lifecycle e s st =
    if stops e (accumulated e s st)
    then set_lastPos (Some (posOf (coords e))) (finishRun e (accumulated e s st))
    else set_lastPos (Some (posOf (coords e))) (accumulated e s st).
Proof. intros Ha Hs Hr. unfold lifecycle. by rewrite Ha, Hs, Hr. Qed.

Lemma accumulated_frame (e : PosEvent) (s : Q) (st : State) :
  armed (accumulated e s st) = armed st
  /\ running (accumulated e s st) = running st
  /\ finished (accumulated e s st) = finished st
  /\ startPos (accumulated e s st) = startPos st
  /\ startTime (accumulated e s st) = startTime st
  /\ peakSpeed (accumulated e s st) = peakSpeed st
  /\ samples (accumulated e s st) = samples st
  /\ kalman (accumulated e s st) = kalman st
  /\ cumulative (accumulated e s st)
     = cumulative st + fst (gatedDelta st (coords e))
  /\ lastHeading (accumulated e s st) = snd (gatedDelta st (coords e)).
Proof. unfold accumulated. cbn -[captureMarks gatedDelta]. repeat split. Qed.

(** ** Distance accumulates only while running *)

Lemma lifecycle_flags (e : PosEvent) (s : Q) (st : State) :
  finished st = false ->
  (armed st = false ->
     armed (lifecycle e s st) = false
     /\ cumulative (lifecycle e s st) = cumulative st)
  /\ (armed st = true -> startPos st = None ->
     running (lifecycle e s st) = running st
     /\ cumulative (lifecycle e s st) = cumulative st)
  /\ (forall sp, armed st = true -> startPos st = Some sp -> running st = false ->
     if startReady (samples st) (nowMs e)
     then running (lifecycle e s st) = true /\ cumulative (lifecycle e s st) = 0
     else running (lifecycle e s st) = false
          /\ cumulative (lifecycle e s st) = cumulative st)
  /\ (forall sp, armed st = true -> startPos st = Some sp -> running st = true ->
     (armed (lifecycle e s st) = false \/ running (lifecycle e s st) = true)).
Proof.
  intros Hf. repeat split.
  - by rewrite lifecycle_not_armed.
  - by rewrite lifecycle_not_armed.
  - rewrite lifecycle_no_lock by done. by destruct (_ <=? 50).
  - rewrite lifecycle_no_lock by done. by destruct (_ <=? 50).
  - intros sp Ha Hs Hr. rewrite (lifecycle_waiting _ _ _ sp) by done.
    cbv zeta. by destruct (startReady _ _).
  - intros sp Ha Hs Hr. rewrite (lifecycle_running _ _ _ sp) by done.
    destruct (accumulated_frame e s st) as (Aa & Ar & Af & _).
    generalize dependent (accumulated e s st). intros st2 Aa Ar Af.
    destruct (stops _ _).
    + left. simpl. apply finishRun_flags. congruence.
    + right. simpl. congruence.
Qed.

Lemma onPos_flags (st : State) (e : PosEvent) :
  finished st = false ->
  (armed st = false ->
     armed (onPos st e) = false /\ cumulative (onPos st e) = cumulative st)
  /\ (armed st = true -> startPos st = None ->
     running (onPos st e) = running st
     /\ cumulative (onPos st e) = cumulative st)
  /\ (forall sp, armed st = true -> startPos st = Some sp -> running st = false ->
     if startReady (pushed st e) (nowMs e)
     then running (onPos st e) = true /\ cumulative (onPos st e) = 0
     else running (onPos st e) = false
          /\ cumulative (onPos st e) = cumulative st)
  /\ (forall sp, armed st = true -> startPos st = Some sp -> running st = true ->
     (armed (onPos st e) = false \/ running (onPos st e) = true)).
Proof.
  intros Hf. unfold onPos. rewrite Hf.
  destruct (fuse_frame st e)
    as (Fa & Fr & Ff & Fs & _ & Fc & _ & _ & Fb & _ & _).
  rewrite <- Fa, <- Fr, <- Fs, <- Fc, <- Fb. rewrite <- Ff in Hf.
  apply lifecycle_flags, Hf.
Qed.

Lemma onPos_idleZero (st : State) (e : PosEvent) :
  idleZero st -> idleZero (onPos st e).
Proof.
  intros Hi Ha Hr.
  destruct (finished st) eqn:Hf; [rewrite onPos_finished in * by done; auto |].
  destruct (onPos_flags st e Hf) as (H1 & H2 & H3 & H4).
  destruct (armed st) eqn:Ea.
  - destruct (startPos st) as [sp |] eqn:Es.
    + destruct (running st) eqn:Er.
      * destruct (H4 sp eq_refl eq_refl eq_refl); congruence.
      * specialize (H3 sp eq_refl eq_refl eq_refl).
        destruct (startReady _ _); destruct H3 as [H3 H3'];
          [congruence | rewrite H3'; by apply Hi].
    + destruct (H2 eq_refl eq_refl) as [H2a H2b].
      rewrite H2b. apply Hi; congruence.
  - destruct (H1 eq_refl). congruence.
Qed.

Lemma exec_idleZero (st : State) (c : Command) :
  idleZero st -> idleZero (exec st c).
Proof.
  intros Hi. destruct c as [geo id | | | e]; simpl.
  - unfold arm. destruct (armed st) eqn:Ea.
    + intros Ha. destruct (clearWatchThrows _ _); discriminate Ha.
    + destruct geo; simpl; [| exact Hi]. intros _ _. reflexivity.
  - intros Ha. simpl in Ha. discriminate.
  - intros Ha. simpl in Ha. discriminate.
  - by apply onPos_idleZero.
Qed.

Lemma Reachable_idleZero (st : State) : Reachable st -> idleZero st.
Proof.
  induction 1 as [| st c _ IH].
  - intros Ha. simpl in Ha. discriminate.
  - by apply exec_idleZero.
Qed.

(** C4.  In every state the machine can reach, a fix that arrives while
    the machine is not armed, or armed and still waiting for the GPS lock,
    or armed and not yet running, leaves the accumulated distance as it
    was. *)
Theorem cumulative_only_while_running (st : State) (e : PosEvent) :
  Reachable st ->
  armed st = false \/ startPos st = None \/ running st = false ->
  cumulative (onPos st e) = cumulative st.
Proof.
  intros HR Hcase. pose proof (Reachable_idleZero st HR) as Hi.
  destruct (finished st) eqn:Hf; [by rewrite onPos_finished |].
  destruct (onPos_flags st e Hf) as (H1 & H2 & H3 & _).
  destruct (armed st) eqn:Ea; [| by apply H1].
  destruct (startPos st) as [sp |] eqn:Es; [| by apply H2].
  destruct Hcase as [Hc | [Hc | Hc]]; [discriminate.. |].
  specialize (H3 sp eq_refl eq_refl Hc).
  destruct (startReady _ _); destruct H3 as [_ H3]; [| exact H3].
  rewrite H3. symmetry. by apply Hi.
Qed.

(** ** The speed half: ghost floor and reconstruction *)

Lemma lifecycle_kalman (e : PosEvent) (s : Q) (st : State) :
  kalman (lifecycle e s st) = kalman st.
Proof.
  destruct (accumulated_frame e s st) as (_ & _ & _ & _ & _ & _ & _ & Ak & _).
  destruct (finishRun_frame e (accumulated e s st)) as (_ & _ & _ & _ & Fk & _).
  destruct (armed st) eqn:Ea; [| by rewrite lifecycle_not_armed].
  destruct (startPos st) as [sp |] eqn:Es.
  - destruct (running st) eqn:Er.
    + rewrite (lifecycle_running _ _ _ sp) by done.
      destruct (stops _ _); cbn [kalman set_lastPos]; congruence.
    + rewrite (lifecycle_waiting _ _ _ sp) by done. cbv zeta.
      by destruct (startReady _ _).
  - rewrite lifecycle_no_lock by done. by destruct (_ <=? 50).
Qed.

Lemma onPos_kalman (st : State) (e : PosEvent) :
  finished st = false -> kalman (onPos st e) = fst (kalmanStep st e).
Proof.
  intros Hf. unfold onPos. rewrite Hf, lifecycle_kalman.
  apply (fuse_frame st e).
Qed.

(** C5.  Whenever the fix has a measured speed [m] after the optional
    reconstruction, the Kalman filter is updated with [0] (in m/s) if
    [m < 2.5] and with [m] itself (in m/s) otherwise. *)
Theorem ghost_floor_before_kalman (st : State) (e : PosEvent) (m : Q) :
  finished st = false ->
  fst (rebuild st e) = Some m ->
  (m < GHOST_THRESHOLD_KMH ->
     kalmanInput st e = Some (0 / 3.6)
     /\ kalman (onPos st e) = Kalman.update (kalman st) (0 / 3.6))
  /\ (GHOST_THRESHOLD_KMH <= m ->
     kalmanInput st e = Some (m / 3.6)
     /\ kalman (onPos st e) = Kalman.update (kalman st) (m / 3.6)).
Proof.
  intros Hf Hm. rewrite (onPos_kalman st e Hf).
  unfold kalmanStep, kalmanInput. rewrite Hm. unfold ghost.
  split; intros Hc.
  - apply Qltb_lt in Hc. by rewrite Hc.
  - apply Qltb_ge in Hc. by rewrite Hc.
Qed.

(** When there is no measurement at all, the filter is left alone. *)
Lemma no_measurement_skips_kalman (st : State) (e : PosEvent) :
  finished st = false -> fst (rebuild st e) = None ->
  kalman (onPos st e) = kalman st.
Proof.
  intros Hf Hm. rewrite (onPos_kalman st e Hf).
  unfold kalmanStep, kalmanInput. by rewrite Hm.
Qed.

Lemma truthy_true (a : Q) : truthy a = true <-> ~ a == 0.
Proof.
  unfold truthy. rewrite negb_true_iff, <- not_true_iff_false, Qeq_bool_iff.
  done.
Qed.

Lemma truthy_false (a : Q) : truthy a = false <-> a == 0.
Proof.
  unfold truthy. rewrite negb_false_iff. apply Qeq_bool_iff.
Qed.

Lemma rebuildSpeedFromDelta_pos (d dt : Q) :
  0 < dt -> rebuildSpeedFromDelta d dt = d / (dt / 1000) * 3.6.
Proof.
  intros Hdt. unfold rebuildSpeedFromDelta.
  apply Qleb_gt in Hdt. by rewrite Hdt.
Qed.

Lemma headingOkOf_true (lh hn : Q) :
  headingOkOf (Some lh) (Some hn) = true <-> angDiff lh hn <= HEADING_MAX_DEG.
Proof. unfold headingOkOf. rewrite negb_true_iff. apply Qltb_ge. Qed.

Lemma rebuild_heading (st : State) (e : PosEvent) (lp : Pos.pos) :
  lastPos st = Some lp ->
  ~ Coords.latitude (coords e) == 0 -> ~ Coords.longitude (coords e) == 0 ->
  snd (rebuild st e)
  = match lastHeading st with
    | Some _ => Some (headingDeg lp (posOf (coords e)))
    | None => None
    end.
Proof.
  intros Hl Hlat Hlon. unfold rebuild. rewrite Hl.
  apply truthy_true in Hlat, Hlon. rewrite Hlat, Hlon. cbn [andb].
  by destruct (_ && _).
Qed.

Lemma rebuild_skipped (st : State) (e : PosEvent) :
  lastPos st = None
  \/ Coords.latitude (coords e) == 0 \/ Coords.longitude (coords e) == 0 ->
  rebuild st e = (directKmh e, lastHeading st).
Proof.
  intros Hc. unfold rebuild. destruct (lastPos st) as [lp |]; [| done].
  destruct Hc as [Hc | [Hc | Hc]]; [done | |];
    apply truthy_false in Hc; rewrite Hc; [done |].
  by rewrite andb_false_r.
Qed.

(** The reconstruction block as the code has it: the direct reading is
    replaced by [distance / dtSeconds * 3.6] exactly when it is absent or
    below 0.5 km/h, a previous position exists, latitude and longitude of
    the fix are both truthy (non-zero), [0 < dt <= 1200] ms and the heading
    gate accepts the segment; in every other case the reading is passed
    on as it came. *)
Lemma speed_rebuilt_from_delta (st : State) (e : PosEvent) :
  let c := coords e in
  let dt := dtMsOf st e in
  (forall lp,
      lastPos st = Some lp ->
      ~ Coords.latitude c == 0 -> ~ Coords.longitude c == 0 ->
      (directKmh e = None \/ exists v, directKmh e = Some v /\ v < 0.5) ->
      0 < dt -> dt <= REBUILD_SPEED_MAX_DT ->
      (forall lh, lastHeading st = Some lh ->
                  angDiff lh (headingDeg lp (posOf c)) <= HEADING_MAX_DEG) ->
      fst (rebuild st e) = Some (hav lp (posOf c) / (dt / 1000) * 3.6))
  /\ (lastPos st = None
      \/ Coords.latitude c == 0 \/ Coords.longitude c == 0
      \/ (exists v, directKmh e = Some v /\ 0.5 <= v)
      \/ dt <= 0 \/ REBUILD_SPEED_MAX_DT < dt
      \/ (exists lp lh, lastPos st = Some lp /\ lastHeading st = Some lh
           /\ HEADING_MAX_DEG < angDiff lh (headingDeg lp (posOf c))) ->
      fst (rebuild st e) = directKmh e).
Proof.
  cbv zeta. split.
  - intros lp Hl Hlat Hlon Hslow Hdt0 Hdt1 Hgate. unfold rebuild. rewrite Hl.
    apply truthy_true in Hlat, Hlon. rewrite Hlat, Hlon. cbn [andb].
    fold (directKmh e).
    assert (match directKmh e with None => true | Some v => v <? 0.5 end = true)
      as ->.
    { destruct Hslow as [-> | (v & -> & Hv)]; [done | by apply Qltb_lt]. }
    pose proof Hdt0 as Hpos.
    apply Qltb_lt in Hdt0 as ->. apply Qle_bool_iff in Hdt1 as ->.
    assert (headingOkOf (lastHeading st)
              match lastHeading st with
              | Some _ => Some (headingDeg lp (posOf (coords e)))
              | None => None
              end = true) as ->.
    { destruct (lastHeading st) as [lh |] eqn:Eh; [| done].
      apply headingOkOf_true. by apply Hgate. }
    cbn [andb fst]. f_equal. by apply rebuildSpeedFromDelta_pos.
  - intros Hc.
    destruct Hc as [Hc | [Hc | [Hc | Hc]]];
      [by rewrite rebuild_skipped by auto ..|].
    unfold rebuild. fold (directKmh e).
    destruct (lastPos st) as [lp |] eqn:El; [| done].
    destruct (truthy _ && truthy _); [| done].
    match goal with
    | |- fst (if ?b then _ else _) = _ => destruct b eqn:Eb; [| done]
    end.
    exfalso. apply andb_prop in Eb as [Eb Hok].
    apply andb_prop in Eb as [Eb Hdt1]. apply andb_prop in Eb as [Hslow Hdt0].
    destruct Hc as [(v & Hv & Hge) | [Hc | [Hc | (lp' & lh & Hl & Hh & Hgt)]]].
    + rewrite Hv in Hslow. apply Qltb_lt in Hslow. lra.
    + apply Qltb_lt in Hdt0. lra.
    + apply Qle_bool_iff in Hdt1. lra.
    + injection Hl as <-. rewrite Hh in Hok.
      apply headingOkOf_true in Hok. lra.
Qed.

(** C6, evaluated on the code.  A fix whose latitude or longitude is 0
    skips the reconstruction block: although the direct reading is absent
    or below 0.5 km/h, a previous position exists, the gap to the newest
    buffered sample satisfies [0 < dt <= 1200] ms and the heading gate
    accepts the segment, the measured speed handed on is the direct
    reading as it came (an absent reading stays absent) and not
    [distance / dtSeconds * 3.6]; the bearing memory is left as it was. *)
Theorem zero_coordinate_skips_reconstruction
    (st : State) (e : PosEvent) (lp : Pos.pos) (s0 : Sample.sample) :
  lastPos st = Some lp ->
  last (samples st) = Some s0 ->
  (Coords.speed (coords e) = None
   \/ exists v, Coords.speed (coords e) = Some v /\ v * 3.6 < 0.5) ->
  0 < now e - Sample.t s0 -> now e - Sample.t s0 <= 1200 ->
  (forall lh, lastHeading st = Some lh ->
              angDiff lh (headingDeg lp (posOf (coords e))) <= 25) ->
  Coords.latitude (coords e) == 0 \/ Coords.longitude (coords e) == 0 ->
  fst (rebuild st e) = (fun v => v * 3.6) <$> Coords.speed (coords e)
  /\ snd (rebuild st e) = lastHeading st
  /\ (Coords.speed (coords e) = None ->
      fst (rebuild st e) = None /\ kalmanInput st e = None).
Proof.
  intros Hl _ _ _ _ _ Hz.
  assert (rebuild st e = (directKmh e, lastHeading st)) as Hr
    by (apply rebuild_skipped; auto).
  unfold kalmanInput. rewrite Hr. unfold directKmh. cbn [fst snd].
  split; [done |]. split; [done |]. by intros ->.
Qed.

(** ** A running machine, fix by fix *)

Lemma lifecycle_running_step (e : PosEvent) (s : Q) (st : State) (sp : Pos.pos) :
  finished st = false -> armed st = true -> running st = true ->
  startPos st = Some sp ->
  let acc := accumulated e s st in
  cumulative (lifecycle e s st) = cumulative st + fst (gatedDelta st (coords e))
  /\ lastHeading (lifecycle e s st) = snd (gatedDelta st (coords e))
  /\ marks (lifecycle e s st) = marks acc
  /\ finished (lifecycle e s st) = stops e acc
  /\ running (lifecycle e s st) = negb (stops e acc)
  /\ armed (lifecycle e s st) = negb (stops e acc)
  /\ startPos (lifecycle e s st) = Some sp
  /\ startTime (lifecycle e s st) = startTime st
  /\ peakSpeed (lifecycle e s st) = peakSpeed st.
Proof.
  intros Hf Ha Hr Hs acc.
  rewrite (lifecycle_running _ _ _ sp) by done. fold acc.
  destruct (accumulated_frame e s st)
    as (Aa & Ar & Af & As & At & Ap & _ & _ & Ac & Ah).
  fold acc in Aa, Ar, Af, As, At, Ap, Ac, Ah. clearbody acc.
  destruct (stops e acc); cbn [negb].
  - unfold finishRun. rewrite Af, Hf. cbn. repeat split; congruence.
  - cbn. repeat split; congruence.
Qed.

Lemma onPos_running (st : State) (e : PosEvent) (sp : Pos.pos) :
  finished st = false -> armed st = true -> running st = true ->
  startPos st = Some sp ->
  let acc := accumulated e (smoothedOf st e) (fuse st e) in
  cumulative (onPos st e)
    = cumulative st + fst (gatedDelta (fuse st e) (coords e))
  /\ lastHeading (onPos st e) = snd (gatedDelta (fuse st e) (coords e))
  /\ marks (onPos st e) = marks acc
  /\ finished (onPos st e) = stops e acc
  /\ running (onPos st e) = negb (stops e acc)
  /\ armed (onPos st e) = negb (stops e acc)
  /\ startPos (onPos st e) = Some sp
  /\ startTime (onPos st e) = startTime st
  /\ peakSpeed (onPos st e) = peakSpeed (fuse st e).
Proof.
  intros Hf Ha Hr Hs. unfold onPos. rewrite Hf.
  destruct (fuse_frame st e)
    as (Fa & Fr & Ff & Fs & _ & Fc & Ft & _).
  rewrite <- Fc, <- Ft.
  apply lifecycle_running_step; congruence.
Qed.

(** ** The heading gate on distance *)

Lemma angDiff_self (h : Q) : angDiff h h == 0.
Proof.
  unfold angDiff.
  assert (jsmod (h - h + 540) 360 == 180) as ->.
  { rewrite (jsmod_360 _ 1); unfold inject_Z; lra. }
  reflexivity.
Qed.

(** What the distance block (lines 264-277) sees once the speed block
    (lines 200-213) has run on the same fix: the remembered bearing has
    already been replaced by the bearing of this very segment. *)
Lemma gatedDelta_after_fuse (st : State) (e : PosEvent) (lp : Pos.pos) (lh : Q) :
  lastPos st = Some lp -> lastHeading st = Some lh ->
  ~ Coords.latitude (coords e) == 0 -> ~ Coords.longitude (coords e) == 0 ->
  gatedDelta (fuse st e) (coords e)
  = (hav lp (posOf (coords e)), Some (headingDeg lp (posOf (coords e)))).
Proof.
  intros Hl Hh Hlat Hlon.
  destruct (fuse_frame st e) as (_ & _ & _ & _ & Fl & _ & _ & _ & _ & Fh & _).
  unfold gatedDelta. rewrite Fl, Hl, Fh.
  rewrite (rebuild_heading st e lp Hl Hlat Hlon), Hh.
  assert ((angDiff (headingDeg lp (posOf (coords e)))
                  (headingDeg lp (posOf (coords e))) <=? HEADING_MAX_DEG) = true)
    as ->; [| done].
  apply Qle_bool_iff. by rewrite angDiff_self.
Qed.

(** The same block when the speed block was skipped because a coordinate
    of the fix is zero: here the comparison is with the bearing of the
    previous segment. *)
Lemma gatedDelta_zero_coordinate (st : State) (e : PosEvent) (lp : Pos.pos) :
  lastPos st = Some lp ->
  Coords.latitude (coords e) == 0 \/ Coords.longitude (coords e) == 0 ->
  gatedDelta (fuse st e) (coords e)
  = (match lastHeading st with
     | Some lh =>
         if angDiff lh (headingDeg lp (posOf (coords e))) <=? HEADING_MAX_DEG
         then hav lp (posOf (coords e)) else 0
     | None => hav lp (posOf (coords e))
     end, Some (headingDeg lp (posOf (coords e)))).
Proof.
  intros Hl Hz.
  destruct (fuse_frame st e) as (_ & _ & _ & _ & Fl & _ & _ & _ & _ & Fh & _).
  unfold gatedDelta. rewrite Fl, Hl, Fh.
  by rewrite rebuild_skipped by auto.
Qed.

(** C7, evaluated on the code.  For a running machine with a previous
    position and a remembered bearing, a fix with non-zero latitude and
    longitude adds the full haversine distance of the segment to the
    accumulated distance even when the new bearing differs from the
    remembered one by more than 25 degrees; the bearing memory is updated
    to the new bearing. *)
Theorem heading_gate_never_rejects
    (st : State) (e : PosEvent) (sp lp : Pos.pos) (lh : Q) :
  finished st = false -> armed st = true -> running st = true ->
  startPos st = Some sp -> lastPos st = Some lp -> lastHeading st = Some lh ->
  ~ Coords.latitude (coords e) == 0 -> ~ Coords.longitude (coords e) == 0 ->
  HEADING_MAX_DEG < angDiff lh (headingDeg lp (posOf (coords e))) ->
  cumulative (onPos st e) = cumulative st + hav lp (posOf (coords e))
  /\ lastHeading (onPos st e) = Some (headingDeg lp (posOf (coords e))).
Proof.
  intros Hf Ha Hr Hs Hl Hh Hlat Hlon _.
  destruct (onPos_running st e sp Hf Ha Hr Hs) as (Hc & Hd & _).
  rewrite Hc, Hd, (gatedDelta_after_fuse st e lp lh) by done. done.
Qed.

(** ** Milestones *)

Lemma resetMarks_lookup (m : Z) : markAt resetMarks m = None.
Proof.
  unfold markAt, resetMarks, MILESTONES. cbn [fold_left].
  rewrite !lookup_insert. repeat case_decide; by rewrite ?lookup_empty.
Qed.

Lemma resetMarks_milestone (m : Z) :
  m ∈ MILESTONES -> resetMarks !! m = Some None.
Proof.
  unfold MILESTONES. rewrite !elem_of_cons, elem_of_nil.
  intros [-> | [-> | [-> | [-> | []]]]]; reflexivity.
Qed.

Lemma markAt_insert (mk : gmap Z (option Mark.mark)) (m k : Z) (v : Mark.mark) :
  markAt (<[m := Some v]> mk) k = if decide (k = m) then Some v else markAt mk k.
Proof.
  unfold markAt. destruct (decide (k = m)) as [-> | Hne].
  - by rewrite lookup_insert_eq.
  - by rewrite lookup_insert_ne.
Qed.

(** The milestone loop, key by key: a key is written exactly when it is
    one of the loop's milestones, holds no capture yet, and the distance
    has reached its threshold. *)
Lemma captureMarks_fold (cum off el sm : Q) (ms : list Z)
    (mk : gmap Z (option Mark.mark)) (k : Z) :
  fold_left (captureMark cum off el sm) ms mk !! k
  = if bool_decide (k ∈ ms)
       && negb (bool_decide (is_Some (markAt mk k)))
       && (cum >=? inject_Z k - off)
    then Some (Some (Mark.mk el sm))
    else mk !! k.
Proof.
  revert mk. induction ms as [| m ms IH]; intros mk; cbn [fold_left].
  - rewrite bool_decide_eq_false_2 by apply not_elem_of_nil. done.
  - rewrite IH. unfold captureMark.
    destruct (decide (k = m)) as [-> | Hne].
    + rewrite (bool_decide_eq_true_2 (m ∈ m :: ms)) by apply list_elem_of_here.
      cbn [andb].
      destruct (negb (bool_decide (is_Some (markAt mk m)))
                && (cum >=? inject_Z m - off)) eqn:Ec.
      * rewrite markAt_insert, decide_True by done.
        rewrite (bool_decide_eq_true_2 (is_Some (Some _))) by eauto.
        cbn [negb andb]. rewrite andb_false_r. by rewrite lookup_insert_eq.
      * destruct (bool_decide (m ∈ ms)); [| done]. cbn [andb]. by rewrite Ec.
    + assert (bool_decide (k ∈ m :: ms) = bool_decide (k ∈ ms)) as ->.
      { apply bool_decide_ext. rewrite elem_of_cons.
        split; [by intros [? | ?] | by right]. }
      destruct (negb (bool_decide (is_Some (markAt mk m)))
                && (cum >=? inject_Z m - off)).
      * rewrite markAt_insert, decide_False by done.
        by rewrite lookup_insert_ne.
      * done.
Qed.

Lemma captureMarks_lookup (cum off el sm : Q)
    (mk : gmap Z (option Mark.mark)) (k : Z) :
  captureMarks cum off el sm mk !! k
  = if bool_decide (k ∈ MILESTONES)
       && negb (bool_decide (is_Some (markAt mk k)))
       && (cum >=? inject_Z k - off)
    then Some (Some (Mark.mk el sm))
    else mk !! k.
Proof. apply captureMarks_fold. Qed.

Lemma is_Some_markAt (mk : gmap Z (option Mark.mark)) (k : Z) (v : Mark.mark) :
  mk !! k = Some (Some v) -> bool_decide (is_Some (markAt mk k)) = true.
Proof.
  intros Hk. apply bool_decide_eq_true_2. unfold markAt. rewrite Hk. eauto.
Qed.

Lemma markAt_None (mk : gmap Z (option Mark.mark)) (k : Z) :
  markAt mk k = None -> bool_decide (is_Some (markAt mk k)) = false.
Proof.
  intros ->. apply bool_decide_eq_false_2. by intros [? ?].
Qed.

(** The milestone map a running machine is left with. *)
Lemma onPos_running_marks (st : State) (e : PosEvent) (sp : Pos.pos) :
  finished st = false -> armed st = true -> running st = true ->
  startPos st = Some sp ->
  marks (onPos st e)
  = captureMarks (cumulative (onPos st e)) (rolloutOffsetOf e)
                 (elapsedOf st e) (smoothedOf st e) (marks st).
Proof.
  intros Hf Ha Hr Hs.
  destruct (onPos_running st e sp Hf Ha Hr Hs) as (Hc & _ & Hm & _).
  rewrite Hm, Hc.
  destruct (fuse_frame st e) as (_ & _ & _ & _ & _ & Fc & Ft & Fm & _).
  unfold accumulated. cbn -[captureMarks gatedDelta elapsedOf].
  rewrite Fc, Fm. f_equal. unfold elapsedOf. cbn. by rewrite Ft.
Qed.

(** A capture, once made, survives every later fix. *)
Lemma captured_stays (st : State) (e : PosEvent) (k : Z) (v : Mark.mark) :
  running st = true \/ finished st = true ->
  marks st !! k = Some (Some v) ->
  marks (onPos st e) !! k = Some (Some v)
  /\ (running (onPos st e) = true \/ finished (onPos st e) = true).
Proof.
  intros Hrf Hk.
  destruct (finished st) eqn:Hf; [by rewrite onPos_finished; auto |].
  destruct Hrf as [Hr | ?]; [| done].
  destruct (fuse_frame st e) as (Fa & Fr & Ff & Fs & _ & _ & _ & Fm & _).
  destruct (armed st) eqn:Ea.
  - destruct (startPos st) as [sp |] eqn:Es.
    + rewrite (onPos_running_marks st e sp) by done.
      rewrite captureMarks_lookup, (is_Some_markAt _ _ _ Hk).
      cbn [negb andb]. rewrite andb_false_r. split; [done |].
      destruct (onPos_running st e sp Hf Ea Hr Es)
        as (_ & _ & _ & Hfin & Hrun & _).
      rewrite Hfin, Hrun. destruct (stops _ _); auto.
    + unfold onPos. rewrite Hf, lifecycle_no_lock by congruence.
      destruct (_ <=? 50); cbn; rewrite Fm, Fr; auto.
  - unfold onPos. rewrite Hf, lifecycle_not_armed by congruence.
    cbn. rewrite Fm, Fr. auto.
Qed.

Lemma captured_stays_feed (es : list PosEvent) (st : State) (k : Z)
    (v : Mark.mark) :
  running st = true \/ finished st = true ->
  marks st !! k = Some (Some v) ->
  marks (feed st es) !! k = Some (Some v).
Proof.
  revert st. induction es as [| e es IH]; intros st Hrf Hk; [done |].
  destruct (captured_stays st e k v Hrf Hk) as [Hk' Hrf'].
  unfold feed. cbn [fold_left]. by apply IH.
Qed.

(** C2.  While running since [t0], for each milestone [M] of 20, 100, 201
    and 402 m, with the rollout offset 0.3048 m when the rollout box is
    ticked and 0 otherwise: a fix at which the accumulated distance has
    reached [M - rolloutOffset] and [M] holds no capture yet records
    [(now - t0) / 1000] seconds and the smoothed speed of the fix (the
    0.25 / 0.75 blend of the filter output and the previous smoothed
    speed) for [M]; a fix at which the distance is still below the
    threshold records nothing; and a capture, once there, is found
    unchanged after any further sequence of fixes. *)
Theorem milestone_captured_once
    (st : State) (e : PosEvent) (sp : Pos.pos) (t0 : Q) (M : Z) :
  finished st = false -> armed st = true -> running st = true ->
  startPos st = Some sp -> startTime st = Some t0 ->
  M = 20%Z \/ M = 100%Z \/ M = 201%Z \/ M = 402%Z ->
  let rolloutOffset := if rolloutChecked e then 0.3048 else 0 in
  let elapsedSeconds := (now e - t0) / 1000 in
  let smoothKmh := snd (kalmanStep st e) in
  let smoothed :=
    0.25 * smoothKmh
    + (1 - 0.25) * match last (samples st) with
                   | Some s => Sample.speed s
                   | None => smoothKmh
                   end in
  (markAt (marks st) M = None ->
   inject_Z M - rolloutOffset <= cumulative (onPos st e) ->
   marks (onPos st e) !! M = Some (Some (Mark.mk elapsedSeconds smoothed)))
  /\ (markAt (marks st) M = None ->
      cumulative (onPos st e) < inject_Z M - rolloutOffset ->
      marks (onPos st e) !! M = marks st !! M)
  /\ (forall v es, marks st !! M = Some (Some v) ->
                   marks (feed st es) !! M = Some (Some v)).
Proof.
  intros Hf Ha Hr Hs Ht HM. cbv zeta.
  assert (M ∈ MILESTONES) as Hin.
  { unfold MILESTONES. rewrite !elem_of_cons. tauto. }
  pose proof (onPos_running_marks st e sp Hf Ha Hr Hs) as Hm.
  assert (elapsedOf st e = (now e - t0) / 1000) as He
    by (unfold elapsedOf; by rewrite Ht).
  assert (rolloutOffsetOf e = if rolloutChecked e then 0.3048 else 0) as Ho
    by reflexivity.
  assert (smoothedOf st e
          = 0.25 * snd (kalmanStep st e)
            + (1 - 0.25) * match last (samples st) with
                           | Some s => Sample.speed s
                           | None => snd (kalmanStep st e)
                           end) as Hsm by reflexivity.
  rewrite He, Ho, Hsm in Hm.
  split; [| split].
  - intros Hnone Hge. rewrite Hm, captureMarks_lookup.
    rewrite bool_decide_eq_true_2 by done. rewrite (markAt_None _ _ Hnone).
    apply Qle_bool_iff in Hge. by rewrite Hge.
  - intros Hnone Hlt. rewrite Hm, captureMarks_lookup.
    apply Qleb_gt in Hlt. rewrite Hlt. by rewrite andb_false_r.
  - intros v es Hk. apply captured_stays_feed; auto.
Qed.

(** ** Start detection *)

(** The start condition in words: some buffered sample lies in the
    trailing window, and every buffered sample in the window is at or above
    the start threshold. *)
Lemma startReady_spec (buf : list Sample.sample) (t : Q) :
  startReady buf t = true
  <-> (exists s, In s buf /\ t - Sample.t s <= START_WINDOW_MS)
      /\ (forall s, In s buf -> t - Sample.t s <= START_WINDOW_MS ->
                    START_THRESHOLD_KMH <= Sample.speed s).
Proof.
  unfold startReady. rewrite andb_true_iff, forallb_forall.
  setoid_rewrite filter_In. setoid_rewrite Qle_bool_iff. split.
  - intros [Hlen Hall]. split; [| by intros s Hs Hw; apply Hall].
    destruct (List.filter _ buf) as [| s l] eqn:El; [done |].
    assert (In s (List.filter
              (fun s => t - Sample.t s <=? START_WINDOW_MS) buf)) as Hin
      by (rewrite El; by left).
    apply filter_In in Hin as [Hin Hw]. apply Qle_bool_iff in Hw. eauto.
  - intros [(s & Hin & Hw) Hall]. split; [| by intros s' [? ?]; apply Hall].
    assert (In s (List.filter
              (fun s => t - Sample.t s <=? START_WINDOW_MS) buf)) as Hin'
      by (apply filter_In; split; [done | by apply Qle_bool_iff]).
    destruct (List.filter _ buf); [done | apply Nat.ltb_lt; simpl; lia].
Qed.

Lemma onPos_waiting (st : State) (e : PosEvent) (sp : Pos.pos) :
  waiting sp st ->
  if readyAt st e
  then running (onPos st e) = true
       /\ armed (onPos st e) = true /\ finished (onPos st e) = false
       /\ startPos (onPos st e) = Some sp
       /\ startTime (onPos st e) = Some (now e)
       /\ cumulative (onPos st e) = 0
       /\ peakSpeed (onPos st e) = smoothedOf st e
       /\ samples (onPos st e) = [Sample.mk (now e) (smoothedOf st e)]
       /\ marks (onPos st e) = resetMarks
  else waiting sp (onPos st e)
       /\ startTime (onPos st e) = startTime st
       /\ cumulative (onPos st e) = cumulative st
       /\ marks (onPos st e) = marks st.
Proof.
  intros (Hf & Ha & Hr & Hs). unfold onPos, readyAt, waiting. rewrite Hf.
  destruct (fuse_frame st e)
    as (Fa & Fr & Ff & Fs & _ & Fc & Ft & Fm & Fb & _).
  rewrite <- Fb, <- Fc, <- Ft, <- Fm.
  rewrite (lifecycle_waiting _ _ _ sp) by congruence. cbv zeta.
  generalize dependent (fuse st e). intros st1 Fa Fr Ff Fs.
  destruct (startReady _ _); cbn; repeat split; congruence.
Qed.

(** As long as no fix finds the start condition true, the machine stays
    where it is. *)
Lemma feed_waiting (sp : Pos.pos) (es : list PosEvent) (st : State) :
  waiting sp st ->
  (forall i e, es !! i = Some e -> readyAt (feed st (take i es)) e = false) ->
  waiting sp (feed st es).
Proof.
  revert st. induction es as [| e es IH]; intros st Hw Hno; [done |].
  unfold feed. cbn [fold_left]. apply IH.
  - pose proof (onPos_waiting st e sp Hw) as Hstep.
    pose proof (Hno 0%nat e eq_refl) as H0.
    change (readyAt st e = false) in H0. rewrite H0 in Hstep. tauto.
  - intros i e' Hi. apply (Hno (S i) e' Hi).
Qed.

Lemma pushed_In (st : State) (e : PosEvent) (s : Sample.sample) :
  In s (pushed st e)
  <-> (In s (samples st) \/ s = Sample.mk (now e) (smoothedOf st e))
      /\ now e - Sample.t s <= 3000.
Proof.
  unfold pushed. rewrite filter_In, in_app_iff, Qle_bool_iff. cbn [In].
  intuition auto.
Qed.

(** The code's [ready] flag against the start condition in words.  A
    sample is in the window of a fix when it is in the rolling buffer as
    the fix leaves it (buffered before or the sample of this fix, and at
    most 3000 ms older than the fix) and at most 450 ms older than the
    handler's second clock reading. *)
Lemma readyAt_spec (st : State) (e : PosEvent) :
  readyAt st e = true
  <-> (exists s,
          (In s (samples st) \/ s = Sample.mk (now e) (smoothedOf st e))
          /\ now e - Sample.t s <= 3000 /\ nowMs e - Sample.t s <= 450)
      /\ (forall s,
             (In s (samples st) \/ s = Sample.mk (now e) (smoothedOf st e))
             /\ now e - Sample.t s <= 3000 /\ nowMs e - Sample.t s <= 450 ->
             3 <= Sample.speed s).
Proof.
  unfold readyAt. rewrite startReady_spec.
  change START_WINDOW_MS with 450. change START_THRESHOLD_KMH with 3.
  split.
  - intros [(s & Hin & Hw) Hall]. split.
    + exists s. apply pushed_In in Hin. tauto.
    + intros s' (Hb & H3 & Hw'). apply Hall; [| exact Hw'].
      apply pushed_In. tauto.
  - intros [(s & Hb & H3 & Hw) Hall]. split.
    + exists s. split; [| exact Hw]. apply pushed_In. tauto.
    + intros s' Hin Hw'. apply Hall. apply pushed_In in Hin. tauto.
Qed.

Lemma onPos_no_lock_running (st : State) (e : PosEvent) :
  finished st = false -> armed st = true -> startPos st = None ->
  running (onPos st e) = running st.
Proof.
  intros Hf Ha Hs.
  by destruct (onPos_flags st e Hf) as (_ & H2 & _); apply H2.
Qed.

(** C3, as the code has it.  A sample is in the window of a fix when it is
    in the rolling buffer as the fix leaves it (buffered before or the
    sample of this fix, at most 3000 ms older than the fix) and at most
    450 ms older than the handler's second clock reading; the start
    condition holds when the window is not empty and every sample in it
    is at 3 km/h or more.  While armed without a start position no fix
    starts the run.  Once the start position has been fixed, the machine
    starts on the first fix for which the start condition holds, and on no
    fix before that one.  The starting fix latches the start time, zeroes
    the distance, sets the peak to the smoothed speed, resets the buffer
    to the one current sample and clears every milestone. *)
Theorem start_on_first_ready_fix :
  let inWindow (st : State) (e : PosEvent) (s : Sample.sample) : Prop :=
    (In s (samples st) \/ s = Sample.mk (now e) (smoothedOf st e))
    /\ now e - Sample.t s <= 3000 /\ nowMs e - Sample.t s <= 450 in
  let ready (st : State) (e : PosEvent) : Prop :=
    (exists s, inWindow st e s)
    /\ (forall s, inWindow st e s -> 3 <= Sample.speed s) in
  (forall st e,
      finished st = false -> armed st = true -> startPos st = None ->
      running st = false ->
      running (onPos st e) = false)
  /\ (forall sp st es e,
        finished st = false -> armed st = true -> running st = false ->
        startPos st = Some sp ->
        (forall i e', es !! i = Some e' -> ~ ready (feed st (take i es)) e') ->
        let st1 := feed st es in
        running st1 = false
        /\ (running (onPos st1 e) = true <-> ready st1 e)
        /\ (ready st1 e ->
            startTime (onPos st1 e) = Some (now e)
            /\ cumulative (onPos st1 e) = 0
            /\ peakSpeed (onPos st1 e) = smoothedOf st1 e
            /\ samples (onPos st1 e) = [Sample.mk (now e) (smoothedOf st1 e)]
            /\ (forall m, markAt (marks (onPos st1 e)) m = None)
            /\ (forall m, m = 20%Z \/ m = 100%Z \/ m = 201%Z \/ m = 402%Z ->
                          marks (onPos st1 e) !! m = Some None))).
Proof.
  cbv zeta. split.
  - intros st e Hf Ha Hs Hr. by rewrite onPos_no_lock_running.
  - intros sp st es e Hf Ha Hr Hs Hno.
    assert (waiting sp st) as Hw by done.
    assert (forall i e', es !! i = Some e' ->
              readyAt (feed st (take i es)) e' = false) as Hno'.
    { intros i e' Hi. apply not_true_is_false. intros Hready.
      apply (Hno i e' Hi). by apply readyAt_spec. }
    pose proof (feed_waiting sp es st Hw Hno') as Hw1.
    pose proof (onPos_waiting (feed st es) e sp Hw1) as Hstep.
    pose proof (readyAt_spec (feed st es) e) as Hspec.
    destruct Hw1 as (_ & _ & Hr1 & _). split; [exact Hr1 |].
    destruct (readyAt (feed st es) e).
    + destruct Hstep as (Hrun & _ & _ & _ & Ht & Hc & Hp & Hb & Hm).
      split; [split; [intros _; by apply Hspec | done] |].
      intros _. repeat split; try done.
      * intros m. rewrite Hm. apply resetMarks_lookup.
      * intros m HM. rewrite Hm. apply resetMarks_milestone.
        unfold MILESTONES. rewrite !elem_of_cons. tauto.
    + destruct Hstep as ((_ & _ & Hrun & _) & _).
      assert (~ ((exists s,
                    (In s (samples (feed st es))
                     \/ s = Sample.mk (now e) (smoothedOf (feed st es) e))
                    /\ now e - Sample.t s <= 3000
                    /\ nowMs e - Sample.t s <= 450)
                 /\ (forall s,
                       (In s (samples (feed st es))
                        \/ s = Sample.mk (now e) (smoothedOf (feed st es) e))
                       /\ now e - Sample.t s <= 3000
                       /\ nowMs e - Sample.t s <= 450 ->
                       3 <= Sample.speed s))) as Hnot
        by (intros Hready; apply Hspec in Hready; discriminate).
      split; [split; [rewrite Hrun; discriminate | intros ?; contradiction] |].
      intros ?; contradiction.
Qed.

(** ** Mode 60-100 *)

Lemma existsb_speed (buf : list Sample.sample) (v : Q) :
  existsb (fun s => s >=? v) (Sample.speed <$> buf) = true
  <-> exists s, In s buf /\ v <= Sample.speed s.
Proof.
  rewrite existsb_exists. split.
  - intros (x & Hin & Hx). apply in_map_iff in Hin as (s & <- & Hs).
    apply Qle_bool_iff in Hx. eauto.
  - intros (s & Hs & Hv). exists (Sample.speed s). split.
    + apply in_map_iff. eauto.
    + by apply Qle_bool_iff.
Qed.

(** C9, as the code has it.  In mode 60-100 a fix processed while running
    finishes the run exactly when the 402 m milestone holds a capture
    after this fix, or the last ten entries of the buffer hold a sample at
    60 km/h or more and a sample at 100 km/h or more. *)
Theorem mode_60_100_finish (st : State) (e : PosEvent) (sp : Pos.pos) :
  finished st = false -> armed st = true -> running st = true ->
  startPos st = Some sp -> modeValue e = Some "60-100" ->
  finished (onPos st e) = true
  <-> is_Some (markAt (marks (onPos st e)) 402)
      \/ ((exists s, In s (lastTen (pushed st e)) /\ 60 <= Sample.speed s)
          /\ (exists s, In s (lastTen (pushed st e)) /\ 100 <= Sample.speed s)).
Proof.
  intros Hf Ha Hr Hs Hmode.
  destruct (onPos_running st e sp Hf Ha Hr Hs) as (_ & _ & Hm & Hfin & _).
  rewrite Hfin, Hm.
  destruct (accumulated_frame e (smoothedOf st e) (fuse st e))
    as (_ & _ & _ & _ & _ & _ & Ab & _).
  destruct (fuse_frame st e) as (_ & _ & _ & _ & _ & _ & _ & _ & Fb & _).
  unfold stops. rewrite Hmode, Ab, Fb.
  generalize (accumulated e (smoothedOf st e) (fuse st e)). intros acc.
  destruct (bool_decide (is_Some (markAt (marks acc) 402))) eqn:E402.
  - apply bool_decide_eq_true in E402. tauto.
  - apply bool_decide_eq_false in E402.
    unfold modeStop.
    change (String.eqb "60-100" "201") with false.
    change (String.eqb "60-100" "402") with false.
    change (String.eqb "60-100" "0-100") with false.
    change (String.eqb "60-100" "0-140") with false.
    change (String.eqb "60-100" "60-100") with true.
    cbn [andb]. cbv zeta.
    rewrite andb_true_iff, !existsb_speed. tauto.
Qed.

End Lifecycle.

(** ** The theorems at work on sample inputs *)

Section Checks.

Import Samples MoreSamples.
#[local] Existing Instance ApproxMath.lib.

Local Ltac run := vm_compute; first [reflexivity | discriminate].

(** C1 as stated fails at [stop]: the run has finished and no [arm] has
    been given, yet after [stop] the next fix moves the peak speed from 40
    to 72 km/h. *)
Lemma freeze_ends_at_stop_counterexample :
  let fin := finishRun northFix midRun in
  finished fin = true
  /\ peakSpeed fin == 40
  /\ peakSpeed (onPos (stop fin) fasterFix) == 72.
Proof. repeat apply conj; run. Qed.

Lemma finished_state_is_frozen_witness :
  let st := finishRun northFix midRun in
  finished st = true
  /\ fold_left exec [CmdFix northFix; CmdFix southFix] st = st
  /\ peakSpeed (fold_left exec [CmdFix northFix; CmdFix southFix] st)
     = peakSpeed st
  /\ finished (exec st CmdStop) = false.
Proof.
  cbv zeta.
  assert (finished (finishRun northFix midRun) = true) as Hf by reflexivity.
  destruct (finished_state_is_frozen (finishRun northFix midRun)
              [CmdFix northFix; CmdFix southFix] Hf)
    as (_ & _ & Hfix & Hstop & _).
  assert (forall c, In c [CmdFix northFix; CmdFix southFix] ->
                    exists e, c = CmdFix e) as Hall
    by (intros c [<- | [<- | []]]; eauto).
  destruct (Hfix Hall) as (Hsame & _ & _ & Hp & _).
  exact (conj Hf (conj Hsame (conj Hp Hstop))).
Defined.

Lemma milestone_captured_once_witness :
  marks (onPos midRun northFix) !! 20%Z
  = Some (Some (Mark.mk ((2000 - 0) / 1000) (smoothedOf midRun northFix)))
  /\ marks (onPos midRun northFix) !! 100%Z = marks midRun !! 100%Z.
Proof.
  destruct (milestone_captured_once midRun northFix (Pos.mk (-6.2) 106.8)
              0 20 eq_refl eq_refl eq_refl eq_refl eq_refl
              (or_introl eq_refl)) as (Hcap & _ & _).
  destruct (milestone_captured_once midRun northFix (Pos.mk (-6.2) 106.8)
              0 100 eq_refl eq_refl eq_refl eq_refl eq_refl
              (or_intror (or_introl eq_refl))) as (_ & Hnot & _).
  split.
  - apply Hcap; [reflexivity | run].
  - apply Hnot; [reflexivity | run].
Defined.

(** C3 as stated fails before the lock.  On this fix of a freshly armed
    machine the buffer holds one sample, inside the 450 ms window and above
    3 km/h, so the start condition holds - whether the fix is poor or good
    in accuracy - and the machine does not start. *)
Lemma start_before_lock_counterexample :
  armed armedNoLock = true /\ running armedNoLock = false
  /\ finished armedNoLock = false
  /\ length (pushed armedNoLock poorFix) = 1%nat
  /\ forallb (fun s => (nowMs poorFix - Sample.t s <=? 450)
                       && (3 <=? Sample.speed s))
             (pushed armedNoLock poorFix) = true
  /\ readyAt armedNoLock poorFix = true
  /\ running (onPos armedNoLock poorFix) = false
  /\ readyAt armedNoLock goodFix = true
  /\ running (onPos armedNoLock goodFix) = false.
Proof. repeat apply conj; run. Qed.

Lemma start_on_first_ready_fix_witness :
  running (onPos armedNoLock poorFix) = false
  /\ running (feed locked [standingFix 1500]) = false
  /\ running (onPos (feed locked [standingFix 1500]) launchFix) = true.
Proof.
  destruct start_on_first_ready_fix as [Hnolock Hstart].
  split; [by apply Hnolock |].
  assert (forall i e', [standingFix 1500] !! i = Some e' ->
            ~ ((exists s,
                   (In s (samples (feed locked (take i [standingFix 1500])))
                    \/ s = Sample.mk (now e')
                             (smoothedOf
                                (feed locked (take i [standingFix 1500])) e'))
                   /\ now e' - Sample.t s <= 3000
                   /\ nowMs e' - Sample.t s <= 450)
               /\ (forall s,
                      (In s (samples (feed locked (take i [standingFix 1500])))
                       \/ s = Sample.mk (now e')
                                (smoothedOf
                                   (feed locked (take i [standingFix 1500]))
                                   e'))
                      /\ now e' - Sample.t s <= 3000
                      /\ nowMs e' - Sample.t s <= 450 ->
                      3 <= Sample.speed s))) as Hno.
  { intros [| i] e' Hi; [| destruct i; discriminate Hi].
    injection Hi as <-. intros Hready.
    apply readyAt_spec in Hready. vm_compute in Hready. discriminate. }
  assert (finished locked = false) as Lf by run.
  assert (armed locked = true) as La by run.
  assert (running locked = false) as Lr by run.
  assert (startPos locked = Some (Pos.mk (-6.2) 106.8)) as Ls by run.
  destruct (Hstart (Pos.mk (-6.2) 106.8) locked [standingFix 1500] launchFix
              Lf La Lr Ls Hno) as (Hr0 & Hiff & _).
  split; [exact Hr0 |].
  apply Hiff. apply readyAt_spec. run.
Defined.

Lemma cumulative_only_while_running_witness :
  Reachable locked
  /\ cumulative (onPos locked launchFix) = cumulative locked.
Proof.
  assert (Reachable locked) as HR.
  { apply (Reachable_exec _ (CmdFix (standingFix 1000))).
    apply (Reachable_exec _ (CmdArm true 1)). apply Reachable_init. }
  split; [exact HR |].
  apply (cumulative_only_while_running locked launchFix HR).
  right. right. run.
Defined.

Lemma ghost_floor_before_kalman_witness :
  kalman (onPos locked (fixAt (-6.2) 106.8 5 (Some 0.5) 1500 false "402"))
  = Kalman.update (kalman locked) (0 / 3.6)
  /\ kalman (onPos locked launchFix)
     = Kalman.update (kalman locked) (15 * 3.6 / 3.6).
Proof.
  split.
  - refine (proj2 (proj1 (ghost_floor_before_kalman locked
              (fixAt (-6.2) 106.8 5 (Some 0.5) 1500 false "402")
              (0.5 * 3.6) _ _) _)); run.
  - refine (proj2 (proj2 (ghost_floor_before_kalman locked launchFix
              (15 * 3.6) _ _) _)); run.
Defined.

(** On the equator: the reading is absent, a previous position exists,
    the gap is 1000 ms and the bearing (180) is the remembered one, so
    [distance / dtSeconds * 3.6] is a positive speed; yet nothing is
    reconstructed. *)
Lemma rebuild_on_equator :
  lastPos equatorRun = Some (Pos.mk 0.0001 109.3)
  /\ directKmh equatorFix = None
  /\ dtMsOf equatorRun equatorFix == 1000
  /\ lastHeading equatorRun = Some 180
  /\ angDiff 180 (headingDeg (Pos.mk 0.0001 109.3) (posOf (coords equatorFix)))
     == 0
  /\ 0 < rebuildSpeedFromDelta
           (hav (Pos.mk 0.0001 109.3) (posOf (coords equatorFix)))
           (dtMsOf equatorRun equatorFix)
  /\ fst (rebuild equatorRun equatorFix) = None.
Proof. repeat apply conj; run. Qed.

Lemma zero_coordinate_skips_reconstruction_witness :
  fst (rebuild equatorRun equatorFix) = None
  /\ kalmanInput equatorRun equatorFix = None
  /\ snd (rebuild equatorRun equatorFix) = Some 180.
Proof.
  assert (forall lh, lastHeading equatorRun = Some lh ->
            angDiff lh (headingDeg (Pos.mk 0.0001 109.3)
                                   (posOf (coords equatorFix))) <= 25) as Hgate.
  { intros lh Hlh. injection Hlh as <-. run. }
  assert (0 < now equatorFix - Sample.t (Sample.mk 1000 40)) as Hd0 by run.
  assert (now equatorFix - Sample.t (Sample.mk 1000 40) <= 1200) as Hd1 by run.
  assert (Coords.latitude (coords equatorFix) == 0
          \/ Coords.longitude (coords equatorFix) == 0) as Hz
    by (left; reflexivity).
  destruct (zero_coordinate_skips_reconstruction equatorRun equatorFix
              (Pos.mk 0.0001 109.3) (Sample.mk 1000 40)
              eq_refl eq_refl (or_introl eq_refl) Hd0 Hd1 Hgate Hz)
    as (_ & Hh & Hnone).
  destruct (Hnone eq_refl) as [Hm Hk].
  exact (conj Hm (conj Hk Hh)).
Defined.

Lemma heading_gate_never_rejects_witness :
  HEADING_MAX_DEG
  < angDiff 0 (headingDeg (Pos.mk (-6.2) 106.8) (posOf (coords southFix)))
  /\ cumulative (onPos midRun southFix)
     = cumulative midRun + hav (Pos.mk (-6.2) 106.8) (posOf (coords southFix)).
Proof.
  assert (HEADING_MAX_DEG
          < angDiff 0 (headingDeg (Pos.mk (-6.2) 106.8)
                                  (posOf (coords southFix)))) as Hflip by run.
  split; [exact Hflip |].
  refine (proj1 (heading_gate_never_rejects midRun southFix
                   (Pos.mk (-6.2) 106.8) (Pos.mk (-6.2) 106.8) 0
                   eq_refl eq_refl eq_refl eq_refl eq_refl eq_refl _ _ Hflip));
    run.
Defined.

(** C9 as stated fails twice.  In mode 60-100 the run finishes at 402 m
    although no buffered sample reaches 60 km/h; and it does not finish
    although the buffer holds a sample at 110 km/h, because that sample is
    not among the last ten. *)
Lemma mode_60_100_counterexample :
  (finished (onPos nearFinish northFix60) = true
   /\ forallb (fun s => Sample.speed s <? 60) (pushed nearFinish northFix60)
      = true)
  /\ (finished (onPos staleFast slowFix60) = false
      /\ existsb (fun s => Sample.speed s >=? 100) (pushed staleFast slowFix60)
         = true
      /\ existsb (fun s => Sample.speed s >=? 60) (pushed staleFast slowFix60)
         = true).
Proof. repeat apply conj; run. Qed.

Lemma mode_60_100_finish_witness :
  finished (onPos fastRun fastFix60) = true
  <-> is_Some (markAt (marks (onPos fastRun fastFix60)) 402)
      \/ ((exists s, In s (lastTen (pushed fastRun fastFix60))
                     /\ 60 <= Sample.speed s)
          /\ (exists s, In s (lastTen (pushed fastRun fastFix60))
                        /\ 100 <= Sample.speed s)).
Proof.
  exact (mode_60_100_finish fastRun fastFix60 (Pos.mk (-6.2) 106.8)
           eq_refl eq_refl eq_refl eq_refl eq_refl).
Defined.

End Checks.

(** * Further properties of the same code *)

(** ** Smoothing *)

(** X1.  With a weight between 0 and 1 the low-pass output lies between
    the previous value and the current one. *)
Theorem lowPass_between (prev cur alpha : Q) :
  0 <= alpha -> alpha <= 1 ->
  Qmin prev cur <= lowPass prev cur alpha
  /\ lowPass prev cur alpha <= Qmax prev cur.
Proof.
  intros Ha0 Ha1. unfold lowPass.
  pose proof (Q.le_min_l prev cur). pose proof (Q.le_min_r prev cur).
  pose proof (Q.le_max_l prev cur). pose proof (Q.le_max_r prev cur).
  split; nra.
Qed.

Lemma lowPass_between_witness :
  Qmin 40 44 <= lowPass 40 44 SPEED_SMOOTH_ALPHA
  /\ lowPass 40 44 SPEED_SMOOTH_ALPHA <= Qmax 40 44.
Proof.
  apply (lowPass_between 40 44 SPEED_SMOOTH_ALPHA); vm_compute; discriminate.
Defined.

(** X2.  With positive covariance and noise terms, one [update] moves the
    estimate towards the measurement and never past it. *)
Theorem Kalman_update_between (k : Kalman.t) (z : Q) :
  0 < Kalman.p k -> 0 < Kalman.q k -> 0 < Kalman.r k ->
  Qmin (Kalman.x k) z <= Kalman.x (Kalman.update k z)
  /\ Kalman.x (Kalman.update k z) <= Qmax (Kalman.x k) z.
Proof.
  intros Hp Hq Hr.
  destruct (Kalman_gain_bounds k Hp Hq Hr) as [Hg0 Hg1].
  unfold Kalman.gain in Hg0, Hg1. unfold Kalman.update.
  cbn [Kalman.x Kalman.p Kalman.r Kalman.predict] in *.
  set (g := (Kalman.p k + Kalman.q k) / (Kalman.p k + Kalman.q k + Kalman.r k))
    in *. clearbody g.
  pose proof (Q.le_min_l (Kalman.x k) z). pose proof (Q.le_min_r (Kalman.x k) z).
  pose proof (Q.le_max_l (Kalman.x k) z). pose proof (Q.le_max_r (Kalman.x k) z).
  split; nra.
Qed.

Lemma Kalman_update_between_witness :
  Qmin (Kalman.x Kalman.init) 10 <= Kalman.x (Kalman.update Kalman.init 10)
  /\ Kalman.x (Kalman.update Kalman.init 10) <= Qmax (Kalman.x Kalman.init) 10.
Proof.
  apply (Kalman_update_between Kalman.init 10); reflexivity.
Defined.

(** One [update] under the configured noise keeps the covariance between
    the fixed point 0.4 and where it was. *)
Lemma Kalman_update_settled (k : Kalman.t) (z : Q) :
  kalmanSettled k ->
  kalmanSettled (Kalman.update k z)
  /\ Kalman.p (Kalman.update k z) <= Kalman.p k.
Proof.
  intros (Hq & Hr & Hlo & Hhi).
  assert (0 < Kalman.p k + Kalman.q k + Kalman.r k) as Hs
    by (rewrite Hq, Hr; unfold KALMAN_Q, KALMAN_R; lra).
  pose proof (Kalman_update_p k z Hs) as Hp.
  assert (0.4 <= Kalman.p (Kalman.update k z)
          /\ Kalman.p (Kalman.update k z) <= Kalman.p k) as [H1 H2].
  { rewrite Hp, Hq, Hr. unfold KALMAN_Q, KALMAN_R. split.
    - apply Qle_shift_div_l; [lra | nra].
    - apply Qle_shift_div_r; [lra | nra]. }
  split; [| exact H2].
  repeat split; [exact Hq | exact Hr | exact H1 | lra].
Qed.

(** ** rebuildSpeedFromDelta *)

(** X3.  A gap that is not positive gives speed 0 rather than a division
    by zero or a negative speed; a positive gap gives
    [meters / seconds * 3.6], which is not negative for a distance that is
    not negative. *)
Theorem rebuildSpeedFromDelta_edges (dMeters dtMs : Q) :
  (dtMs <= 0 -> rebuildSpeedFromDelta dMeters dtMs = 0)
  /\ (0 < dtMs ->
      rebuildSpeedFromDelta dMeters dtMs = dMeters / (dtMs / 1000) * 3.6
      /\ (0 <= dMeters -> 0 <= rebuildSpeedFromDelta dMeters dtMs)).
Proof.
  split.
  - intros Hle. unfold rebuildSpeedFromDelta.
    apply Qle_bool_iff in Hle. by rewrite Hle.
  - intros Hpos. rewrite (rebuildSpeedFromDelta_pos _ _ Hpos).
    split; [done |]. intros Hd.
    assert (0 < dtMs / 1000) as Hs by (apply Qlt_shift_div_l; lra).
    assert (0 <= dMeters / (dtMs / 1000)) as Hv
      by (apply Qle_shift_div_l; [exact Hs | lra]).
    nra.
Qed.

Lemma rebuildSpeedFromDelta_edges_witness :
  rebuildSpeedFromDelta 10 0 = 0
  /\ rebuildSpeedFromDelta 10 1000 = 10 / (1000 / 1000) * 3.6
  /\ 0 <= rebuildSpeedFromDelta 10 1000.
Proof.
  destruct (rebuildSpeedFromDelta_edges 10 0) as [H0 _].
  destruct (rebuildSpeedFromDelta_edges 10 1000) as [_ H1].
  assert (0 < 1000) as Hpos by reflexivity.
  destruct (H1 Hpos) as [Heq Hnn].
  split; [apply H0; vm_compute; discriminate |].
  split; [exact Heq | apply Hnn; vm_compute; discriminate].
Defined.

Section Further.

Context `{MathLib}.

(** ** More on what each half writes *)

Lemma fuse_rest (st : State) (e : PosEvent) :
  graphSamples (fuse st e)
  = (let graph := graphSamples st ++ [Sample.mk (now e) (smoothedOf st e)] in
     if (2000 <? length graph)%nat then tail graph else graph)
  /\ peakSpeed (fuse st e)
     = match ghost (fst (rebuild st e)) with
       | Some m => if m >? peakSpeed st then m else peakSpeed st
       | None => peakSpeed st
       end
  /\ status (fuse st e) = status st
  /\ lastRun (fuse st e) = lastRun st
  /\ watchId (fuse st e) = watchId st.
Proof.
  unfold fuse. generalize (pushed st e), (snd (rebuild st e)),
    (fst (kalmanStep st e)), (smoothedOf st e). intros buf lh kal s.
  generalize (ghost (fst (rebuild st e))). intros [m |].
  - cbn [peakSpeed set_graphSamples set_samples set_kalman set_lastHeading].
    destruct (_ >? _); repeat split.
  - repeat split.
Qed.

(** The five ways out of the lifecycle half, as far as the buffers, the
    marks and the record are concerned. *)
Lemma lifecycle_buffers (e : PosEvent) (s : Q) (st : State) :
  finished st = false ->
  (finished (lifecycle e s st) = false
   /\ graphSamples (lifecycle e s st) = graphSamples st
   /\ lastRun (lifecycle e s st) = lastRun st
   /\ (samples (lifecycle e s st) = samples st
       \/ samples (lifecycle e s st) = [Sample.mk (now e) s]))
  \/ (finished (lifecycle e s st) = true
      /\ graphSamples (lifecycle e s st) = []
      /\ samples (lifecycle e s st) = []).
Proof.
  intros Hf.
  destruct (armed st) eqn:Ea;
    [| left; rewrite lifecycle_not_armed by done; cbn; auto].
  destruct (startPos st) as [sp |] eqn:Es.
  - destruct (running st) eqn:Er.
    + rewrite (lifecycle_running _ _ _ sp) by done.
      destruct (accumulated_frame e s st)
        as (_ & _ & Af & _ & _ & _ & Ab & _).
      assert (graphSamples (accumulated e s st) = graphSamples st
              /\ lastRun (accumulated e s st) = lastRun st) as [Ag Al]
        by (unfold accumulated; by cbn -[captureMarks gatedDelta]).
      generalize dependent (accumulated e s st). intros acc Af Ab Ag Al.
      destruct (stops e acc).
      * right. unfold finishRun. rewrite Af, Hf. cbn. auto.
      * left. cbn. rewrite Af, Hf, Ag, Al, Ab. auto.
    + left. rewrite (lifecycle_waiting _ _ _ sp) by done. cbv zeta.
      destruct (startReady _ _); cbn; auto.
  - left. rewrite lifecycle_no_lock by done.
    destruct (_ <=? 50); cbn; auto.
Qed.

(** ** The rolling buffer (lines 229-232) *)

Lemma pushed_last (st : State) (e : PosEvent) :
  last (pushed st e) = Some (Sample.mk (now e) (smoothedOf st e)).
Proof.
  unfold pushed. rewrite List.filter_app. cbn [List.filter Sample.t].
  assert ((now e - now e <=? 3000) = true) as ->
    by (apply Qle_bool_iff; lra).
  apply last_snoc.
Qed.

(** X4.  After a fix that finds the machine unfinished, the rolling
    buffer holds nothing but samples it held before and the sample of this
    fix, none of them more than 3000 ms older than the fix; unless the fix
    finishes the run, the sample of this fix is its newest entry, and if it
    does, the buffer is empty. *)
Theorem buffer_within_window (st : State) (e : PosEvent) :
  finished st = false ->
  let cur := Sample.mk (now e) (smoothedOf st e) in
  (forall s, In s (samples (onPos st e)) ->
             (In s (samples st) \/ s = cur) /\ now e - Sample.t s <= 3000)
  /\ (finished (onPos st e) = false -> last (samples (onPos st e)) = Some cur)
  /\ (finished (onPos st e) = true -> samples (onPos st e) = []).
Proof.
  intros Hf cur. unfold onPos. rewrite Hf.
  destruct (fuse_frame st e)
    as (_ & _ & Ff & _ & _ & _ & _ & _ & Fb & _).
  rewrite <- Ff in Hf.
  destruct (lifecycle_buffers e (smoothedOf st e) (fuse st e) Hf)
    as [(Hfin & _ & _ & [Hb | Hb]) | (Hfin & _ & Hb)];
    rewrite Hb, Hfin; fold cur.
  - rewrite Fb. split; [| split]; [| | done].
    + intros s Hs. by apply pushed_In.
    + intros _. apply pushed_last.
  - split; [| split]; [| done | done].
    intros s [<- | []]. split; [by right |]. cbn. lra.
  - split; [| split]; [| done | done]. intros s [].
Qed.

(** ** The graph buffer (lines 234-235) *)

Lemma onPos_graphSamples (st : State) (e : PosEvent) :
  (length (graphSamples st) <= 2000)%nat ->
  (length (graphSamples (onPos st e)) <= 2000)%nat.
Proof.
  intros Hlen. destruct (finished st) eqn:Hf; [by rewrite onPos_finished |].
  unfold onPos. rewrite Hf.
  destruct (fuse_frame st e) as (_ & _ & Ff & _).
  destruct (fuse_rest st e) as (Fg & _). rewrite <- Ff in Hf.
  destruct (lifecycle_buffers e (smoothedOf st e) (fuse st e) Hf)
    as [(_ & Hg & _) | (_ & Hg & _)]; rewrite Hg; [| cbn; lia].
  rewrite Fg. cbv zeta.
  assert (length (graphSamples st ++ [Sample.mk (now e) (smoothedOf st e)])
          = S (length (graphSamples st))) as Hl
    by (rewrite length_app; cbn [length]; lia).
  destruct (graphSamples st ++ _) as [| g gs]; [cbn; lia |].
  destruct (2000 <? _)%nat eqn:E.
  - cbn [tail length] in *. lia.
  - apply Nat.ltb_ge in E. exact E.
Qed.

(** X5.  However many fixes arrive, the graph buffer never holds more
    than 2000 samples. *)
Theorem graphSamples_bounded (st : State) :
  Reachable st -> (length (graphSamples st) <= 2000)%nat.
Proof.
  induction 1 as [| st c _ IH]; [cbn; lia |].
  destruct c as [geo id | | | e]; cbn [exec].
  - unfold arm. destruct (armed st);
      [destruct (clearWatchThrows _ _); cbn; lia |].
    destruct geo; cbn; [lia | exact IH].
  - exact IH.
  - cbn. lia.
  - by apply onPos_graphSamples.
Qed.

(** ** The run record (lines 149-183) *)

Lemma finishRun_record (e : PosEvent) (st : State) :
  finished st = false ->
  exists r,
    lastRun (finishRun e st) = Some r
    /\ rr_distance r = cumulative st
    /\ rr_peak r = peakSpeed st
    /\ rr_marks r = marks st
    /\ rr_d402 r = Mark.time <$> markAt (marks st) 402
    /\ rr_rollout r = rolloutChecked e
    /\ rr_date r = dateNow e.
Proof.
  intros Hf. unfold finishRun. rewrite Hf. cbn. eexists. split; [done |].
  cbn. repeat split.
Qed.

Lemma finishRun_effects (e : PosEvent) (st : State) :
  finished st = false ->
  armed (finishRun e st) = false /\ running (finishRun e st) = false
  /\ samples (finishRun e st) = [] /\ graphSamples (finishRun e st) = []
  /\ status (finishRun e st) = StFinish.
Proof. intros Hf. unfold finishRun. rewrite Hf. cbn. done. Qed.

(** X6.  The fix that finishes a run leaves in [window._lastRun] a record
    whose distance, peak and milestones are those the state is frozen
    with; the machine is neither armed nor running any more and both
    buffers are empty. *)
Theorem finishing_fix_records_run (st : State) (e : PosEvent) (sp : Pos.pos) :
  finished st = false -> armed st = true -> running st = true ->
  startPos st = Some sp ->
  finished (onPos st e) = true ->
  (exists r,
      lastRun (onPos st e) = Some r
      /\ rr_distance r = cumulative (onPos st e)
      /\ rr_peak r = peakSpeed (onPos st e)
      /\ rr_marks r = marks (onPos st e)
      /\ rr_d402 r = Mark.time <$> markAt (marks (onPos st e)) 402)
  /\ armed (onPos st e) = false /\ running (onPos st e) = false
  /\ samples (onPos st e) = [] /\ graphSamples (onPos st e) = []
  /\ status (onPos st e) = StFinish.
Proof.
  intros Hf Ha Hr Hs. unfold onPos. rewrite Hf.
  destruct (fuse_frame st e) as (Fa & Fr & Ff & Fs & _).
  rewrite (lifecycle_running _ _ _ sp) by congruence.
  destruct (accumulated_frame e (smoothedOf st e) (fuse st e))
    as (_ & _ & Af & _).
  rewrite Ff, Hf in Af.
  generalize dependent (accumulated e (smoothedOf st e) (fuse st e)).
  intros acc Af.
  destruct (stops e acc); [intros _ | cbn; rewrite Af; discriminate].
  destruct (finishRun_record e acc Af) as (r & Hr0 & Hd & Hp & Hm & H4 & _).
  destruct (finishRun_frame e acc) as (Gc & _ & Gp & Gm & _).
  destruct (finishRun_effects e acc Af) as (Ea & Er & Eb & Eg & Es).
  generalize dependent (finishRun e acc). intros fin Hr0 Gc Gp Gm Ea Er Eb Eg Es.
  cbn. split; [| done].
  exists r. rewrite Gc, Gp, Gm. by rewrite H4.
Qed.

(** ** Commands (lines 340-373) *)

(** X7.  [arm] toggles.  From a machine that is not armed, arming and
    then arming again leaves the machine disarmed with everything of the
    run cleared.  Where the second call can release the watch (geolocation
    is there, or the handle is 0 and is not released at all) it goes on to
    set the status to idle and to reset the filter, which the arming call
    had left alone.  Where geolocation is gone and the handle is not 0,
    [clearWatch] throws: the handle, the status and the filter stay as the
    arming call left them. *)
Theorem arm_twice_disarms (geo : bool) (id id' : Z) (st : State) :
  armed st = false ->
  (armed (arm true id st) = true /\ kalman (arm true id st) = kalman st)
  /\ let st' := arm geo id' (arm true id st) in
     (armed st' = false /\ running st' = false /\ finished st' = false
      /\ startPos st' = None /\ lastPos st' = None /\ lastHeading st' = None
      /\ cumulative st' = 0 /\ startTime st' = None /\ peakSpeed st' = 0
      /\ samples st' = [] /\ graphSamples st' = [] /\ marks st' = resetMarks)
     /\ (geo = true \/ id = 0%Z ->
         Kalman.x (kalman st') = 0 /\ Kalman.p (kalman st') = 1
         /\ status st' = StIdle
         /\ watchId st' = if Z.eqb id 0 then Some id else None)
     /\ (geo = false -> id <> 0%Z ->
         kalman st' = kalman st /\ status st' = StRequestingGPS
         /\ watchId st' = Some id).
Proof.
  intros Ha. unfold arm at 1 2 4. rewrite Ha. cbn [negb].
  split; [done |]. unfold arm. cbn -[Z.eqb].
  destruct (Z.eqb id 0) eqn:Eid; cbn.
  - apply Z.eqb_eq in Eid. split; [done |]. split; [done |].
    intros _ Hne. by destruct Hne.
  - apply Z.eqb_neq in Eid. destruct geo; cbn.
    + split; [done |]. split; [done | discriminate].
    + split; [done |]. split; [by intros [? | ?] | done].
Qed.

(** X8.  [resetAll] twice is [resetAll] once, and what it leaves is the
    start-up state except for the watch handle, the last run record and
    the filter's noise terms, which it does not touch. *)
Theorem resetAll_restores_startup (st : State) :
  resetAll (resetAll st) = resetAll st
  /\ resetAll st
     = set_kalman (Kalman.reset (kalman st) 0)
         (set_lastRun (lastRun st)
            (set_watchId (clearWatch (watchId st)) init)).
Proof.
  split.
  - unfold resetAll, resetUI, clearRun. cbn.
    assert (clearWatch (clearWatch (watchId st)) = clearWatch (watchId st))
      as -> by (destruct (watchId st) as [id |]; cbn; [| done];
                destruct (Z.eqb id 0) eqn:E; cbn; by rewrite ?E).
    done.
  - reflexivity.
Qed.

(** A machine that is not armed stays so, fix after fix, and nothing of
    the run changes. *)
Lemma onPos_not_armed (st : State) (e : PosEvent) :
  armed st = false ->
  armed (onPos st e) = false
  /\ running (onPos st e) = running st
  /\ finished (onPos st e) = finished st
  /\ cumulative (onPos st e) = cumulative st
  /\ startTime (onPos st e) = startTime st
  /\ startPos (onPos st e) = startPos st
  /\ marks (onPos st e) = marks st
  /\ lastRun (onPos st e) = lastRun st.
Proof.
  intros Ha. destruct (finished st) eqn:Hf; [by rewrite onPos_finished |].
  unfold onPos. rewrite Hf.
  destruct (fuse_frame st e) as (Fa & Fr & Ff & Fs & _ & Fc & Ft & Fm & _).
  destruct (fuse_rest st e) as (_ & _ & _ & Fl & _).
  rewrite lifecycle_not_armed by congruence. cbn.
  repeat split; congruence.
Qed.

Lemma feed_not_armed (es : list PosEvent) (st : State) :
  armed st = false ->
  armed (feed st es) = false
  /\ running (feed st es) = running st
  /\ finished (feed st es) = finished st
  /\ cumulative (feed st es) = cumulative st
  /\ startTime (feed st es) = startTime st
  /\ startPos (feed st es) = startPos st
  /\ marks (feed st es) = marks st
  /\ lastRun (feed st es) = lastRun st.
Proof.
  revert st. induction es as [| e es IH]; intros st Ha; [done |].
  destruct (onPos_not_armed st e Ha)
    as (Ha' & Hr & Hf & Hc & Ht & Hs & Hm & Hl).
  unfold feed. cbn [fold_left]. fold (feed (onPos st e) es).
  destruct (IH (onPos st e) Ha') as (? & ? & ? & ? & ? & ? & ? & ?).
  repeat split; congruence.
Qed.

(** X9.  Fixes that reach a machine that is not armed - idle, stopped or
    finished - never arm or start it and change neither the distance, the
    start time, the start position, the milestones nor the last run
    record.  In particular the values of a run stay as [stop] left them. *)
Theorem unarmed_machine_ignores_fixes (st : State) (es : list PosEvent) :
  armed st = false ->
  (armed (feed st es) = false
   /\ running (feed st es) = running st
   /\ finished (feed st es) = finished st
   /\ cumulative (feed st es) = cumulative st
   /\ startTime (feed st es) = startTime st
   /\ startPos (feed st es) = startPos st
   /\ marks (feed st es) = marks st
   /\ lastRun (feed st es) = lastRun st)
  /\ (forall st0,
        cumulative (feed (stop st0) es) = cumulative st0
        /\ marks (feed (stop st0) es) = marks st0
        /\ startTime (feed (stop st0) es) = startTime st0
        /\ lastRun (feed (stop st0) es) = lastRun st0
        /\ armed (feed (stop st0) es) = false
        /\ running (feed (stop st0) es) = false).
Proof.
  intros Ha. split; [by apply feed_not_armed |]. intros st0.
  assert (armed (stop st0) = false) as Hs by reflexivity.
  destruct (feed_not_armed es (stop st0) Hs)
    as (? & Hr & ? & Hc & Ht & ? & Hm & Hl).
  rewrite Hr, Hc, Ht, Hm, Hl. done.
Qed.

(** ** The GPS lock (lines 250-262) *)

Lemma onPos_no_lock (st : State) (e : PosEvent) :
  finished st = false -> armed st = true -> startPos st = None ->
  onPos st e =
    if Coords.accuracy (coords e) <=? 50 then
      set_lastPos (Some (posOf (coords e)))
        (set_status StWaitingThrottle
          (set_lastHeading None
            (set_lastPos (Some (posOf (coords e)))
              (set_startPos (Some (posOf (coords e))) (fuse st e)))))
    else set_lastPos (Some (posOf (coords e)))
           (set_status StWaitingAccuracy (fuse st e)).
Proof.
  intros Hf Ha Hs. unfold onPos. rewrite Hf.
  destruct (fuse_frame st e) as (Fa & _ & _ & Fs & _).
  apply lifecycle_no_lock; congruence.
Qed.

(** X10.  An armed machine without a start position takes the position of
    a fix as start position only if the fix reports an accuracy of 50 m
    or better, and then forgets the remembered bearing; a less accurate
    fix leaves it waiting.  Neither fix starts the run or changes the
    distance. *)
Theorem lock_requires_accuracy (st : State) (e : PosEvent) :
  finished st = false -> armed st = true -> startPos st = None ->
  (Coords.accuracy (coords e) <= 50 ->
     startPos (onPos st e) = Some (posOf (coords e))
     /\ lastPos (onPos st e) = Some (posOf (coords e))
     /\ lastHeading (onPos st e) = None
     /\ status (onPos st e) = StWaitingThrottle)
  /\ (50 < Coords.accuracy (coords e) ->
      startPos (onPos st e) = None
      /\ lastPos (onPos st e) = Some (posOf (coords e))
      /\ status (onPos st e) = StWaitingAccuracy)
  /\ running (onPos st e) = running st
  /\ cumulative (onPos st e) = cumulative st
  /\ marks (onPos st e) = marks st.
Proof.
  intros Hf Ha Hs. rewrite (onPos_no_lock st e Hf Ha Hs).
  destruct (fuse_frame st e) as (_ & Fr & _ & _ & _ & Fc & _ & Fm & _).
  split; [| split].
  - intros Hacc. apply Qle_bool_iff in Hacc. by rewrite Hacc.
  - intros Hacc. apply Qleb_gt in Hacc. rewrite Hacc. cbn.
    destruct (fuse_frame st e) as (_ & _ & _ & -> & _). done.
  - destruct (_ <=? 50); cbn; repeat split; congruence.
Qed.

(** X11.  Arming after a finished run lifts the freeze: the machine is
    armed and unfinished with the run cleared, the record of the finished
    run is still there, and the next sufficiently accurate fix is taken as
    the new start position. *)
Theorem rearm_after_finish
    (e0 e : PosEvent) (id : Z) (st : State) :
  finished st = false ->
  let st1 := arm true id (finishRun e0 st) in
  armed st1 = true /\ finished st1 = false /\ running st1 = false
  /\ cumulative st1 = 0 /\ startPos st1 = None /\ marks st1 = resetMarks
  /\ lastRun st1 = lastRun (finishRun e0 st)
  /\ (Coords.accuracy (coords e) <= 50 ->
      startPos (onPos st1 e) = Some (posOf (coords e))).
Proof.
  intros Hf st1.
  assert (armed (finishRun e0 st) = false) as Ha
    by (by apply finishRun_effects).
  assert (armed st1 = true /\ finished st1 = false /\ running st1 = false
          /\ cumulative st1 = 0 /\ startPos st1 = None
          /\ marks st1 = resetMarks
          /\ lastRun st1 = lastRun (finishRun e0 st))
    as (A1 & A2 & A3 & A4 & A5 & A6 & A7)
    by (unfold st1, arm; rewrite Ha; cbn; done).
  repeat split; try done.
  intros Hacc. rewrite (onPos_no_lock st1 e A2 A1 A5).
  apply Qle_bool_iff in Hacc. by rewrite Hacc.
Qed.

(** ** The filter along a session *)

Lemma onPos_kalman_cases (st : State) (e : PosEvent) :
  kalman (onPos st e) = kalman st
  \/ exists z, kalman (onPos st e) = Kalman.update (kalman st) z.
Proof.
  destruct (finished st) eqn:Hf; [left; by rewrite onPos_finished |].
  rewrite (onPos_kalman st e Hf). unfold kalmanStep.
  destruct (kalmanInput st e) as [z |]; cbn; eauto.
Qed.

(** X12.  In every state the machine can reach, the filter carries the
    configured noise terms Q = 0.1 and R = 2 and its covariance lies
    between 0.4, the fixed point of the update under these terms, and 1,
    the value it is reset to - so the gain stays between 0.2 and 0.36. *)
Theorem kalman_covariance_settles (st : State) :
  Reachable st ->
  kalmanSettled (kalman st)
  /\ 0.2 <= Kalman.gain (kalman st) /\ Kalman.gain (kalman st) <= 0.36.
Proof.
  intros HR.
  assert (kalmanSettled (kalman st)) as Hk.
  { induction HR as [| st c _ IH]; [by repeat split |].
    destruct c as [geo id | | | e]; cbn [exec].
    - unfold arm. destruct (armed st).
      + destruct (clearWatchThrows _ _); [exact IH |].
        destruct IH as (Hq & Hr & _). cbn. by repeat split.
      + destruct geo; [exact IH | exact IH].
    - exact IH.
    - destruct IH as (Hq & Hr & _). cbn. by repeat split.
    - destruct (onPos_kalman_cases st e) as [-> | (z & ->)]; [exact IH |].
      by apply Kalman_update_settled. }
  split; [exact Hk |].
  destruct Hk as (Hq & Hr & Hlo & Hhi).
  unfold Kalman.gain, Kalman.predict. cbn [Kalman.p Kalman.r].
  rewrite Hq, Hr. unfold KALMAN_Q, KALMAN_R. split.
  - apply Qle_shift_div_l; [lra | nra].
  - apply Qle_shift_div_r; [lra | nra].
Qed.

(** ** Peak speed (line 239) *)

(** X13.  Outside the start transition a fix never lowers the peak speed,
    and the peak after the fix is at least the measured speed of the fix
    (the ghost-floored value that went into the filter, not the smoothed
    one). *)
Theorem peak_tracks_measured_speed (st : State) (e : PosEvent) :
  finished st = false ->
  armed st = false \/ startPos st = None \/ running st = true ->
  peakSpeed st <= peakSpeed (onPos st e)
  /\ (forall m, ghost (fst (rebuild st e)) = Some m ->
                m <= peakSpeed (onPos st e)).
Proof.
  intros Hf Hcase.
  assert (peakSpeed (onPos st e) = peakSpeed (fuse st e)) as ->.
  { unfold onPos. rewrite Hf.
    destruct (fuse_frame st e) as (Fa & Fr & Ff & Fs & _).
    destruct (armed st) eqn:Ea;
      [| by rewrite lifecycle_not_armed by congruence].
    destruct (startPos st) as [sp |] eqn:Es.
    - destruct Hcase as [? | [? | Hr]]; [done.. |].
      assert (finished (fuse st e) = false) as Hf1 by congruence.
      assert (armed (fuse st e) = true) as Ha1 by congruence.
      assert (running (fuse st e) = true) as Hr1 by congruence.
      assert (startPos (fuse st e) = Some sp) as Hs1 by congruence.
      by destruct (lifecycle_running_step e (smoothedOf st e) (fuse st e) sp
                     Hf1 Ha1 Hr1 Hs1) as (_ & _ & _ & _ & _ & _ & _ & _ & ->).
    - rewrite lifecycle_no_lock by congruence. by destruct (_ <=? 50). }
  destruct (fuse_rest st e) as (_ & -> & _).
  destruct (ghost (fst (rebuild st e))) as [m |].
  - destruct (m >? peakSpeed st) eqn:E.
    + apply Qltb_lt in E. split; [lra |]. intros ? [= <-]. lra.
    + apply Qltb_ge in E. split; [lra |]. intros ? [= <-]. exact E.
  - split; [lra | done].
Qed.

(** ** Milestones come in order *)

Lemma onPos_marks_cases (st : State) (e : PosEvent) :
  marks (onPos st e) = marks st
  \/ marks (onPos st e) = resetMarks
  \/ exists cum off el sm,
       marks (onPos st e) = captureMarks cum off el sm (marks st).
Proof.
  destruct (finished st) eqn:Hf; [left; by rewrite onPos_finished |].
  destruct (armed st) eqn:Ea;
    [| left; by apply onPos_not_armed].
  destruct (startPos st) as [sp |] eqn:Es;
    [| left; rewrite onPos_no_lock by done;
       destruct (fuse_frame st e) as (_ & _ & _ & _ & _ & _ & _ & Fm & _);
       by destruct (_ <=? 50)].
  destruct (running st) eqn:Er.
  - right. right. rewrite (onPos_running_marks st e sp) by done. eauto.
  - assert (waiting sp st) as Hw by done.
    pose proof (onPos_waiting st e sp Hw) as Hstep.
    destruct (readyAt st e); [right; left | left]; tauto.
Qed.

Lemma resetMarks_ordered : marksOrdered resetMarks.
Proof.
  intros a b _ _ _ [v Hv]. by rewrite resetMarks_lookup in Hv.
Qed.

Lemma markAt_captureMarks (cum off el sm : Q)
    (mk : gmap Z (option Mark.mark)) (k : Z) :
  is_Some (markAt (captureMarks cum off el sm mk) k)
  <-> is_Some (markAt mk k)
      \/ (k ∈ MILESTONES /\ inject_Z k - off <= cum).
Proof.
  unfold markAt at 1. rewrite captureMarks_lookup.
  destruct (bool_decide (k ∈ MILESTONES)) eqn:Ek; cbn [andb].
  - apply bool_decide_eq_true in Ek.
    destruct (bool_decide (is_Some (markAt mk k))) eqn:Ec; cbn [negb andb].
    + apply bool_decide_eq_true in Ec. split; [by left |]. intros _.
      destruct Ec as [v Hv]. unfold markAt in Hv.
      destruct (mk !! k) as [[w |] |]; [eauto | done | done].
    + apply bool_decide_eq_false in Ec.
      destruct (cum >=? inject_Z k - off) eqn:Et.
      * apply Qle_bool_iff in Et. split; [by right | eauto].
      * apply Qleb_gt in Et. split.
        -- intros Hs. exfalso. apply Ec. exact Hs.
        -- intros [? | [_ ?]]; [done | lra].
  - apply bool_decide_eq_false in Ek. fold (markAt mk k). tauto.
Qed.

Lemma captureMarks_ordered (cum off el sm : Q)
    (mk : gmap Z (option Mark.mark)) :
  marksOrdered mk -> marksOrdered (captureMarks cum off el sm mk).
Proof.
  intros Ho a b Ha Hb Hab. rewrite !markAt_captureMarks.
  intros [Hcap | [_ Hthr]].
  - left. by apply (Ho a b).
  - right. split; [done |].
    assert (inject_Z a <= inject_Z b) by (by rewrite <- Zle_Qle). lra.
Qed.

(** X14.  In every state the machine can reach, the milestone captures
    are ordered by distance: a milestone holds a capture only if every
    shorter milestone does - 402 m is never captured before 201 m, 100 m
    and 20 m. *)
Theorem milestones_captured_in_order (st : State) :
  Reachable st -> marksOrdered (marks st).
Proof.
  induction 1 as [| st c _ IH]; [apply resetMarks_ordered |].
  destruct c as [geo id | | | e]; cbn [exec].
  - unfold arm. destruct (armed st);
      [destruct (clearWatchThrows _ _); apply resetMarks_ordered |].
    destruct geo; [apply resetMarks_ordered | exact IH].
  - exact IH.
  - apply resetMarks_ordered.
  - destruct (onPos_marks_cases st e)
      as [-> | [-> | (cum & off & el & sm & ->)]].
    + exact IH.
    + apply resetMarks_ordered.
    + by apply captureMarks_ordered.
Qed.

(** ** The stop conditions (lines 315-334) *)

Lemma modeStop_spec (mode : string) (cum off peak : Q)
    (buf : list Sample.sample) :
  modeStop mode cum off peak buf = true
  <-> (mode = "201" /\ 201 - off <= cum)
      \/ (mode = "402" /\ 402 - off <= cum)
      \/ (mode = "0-100" /\ 100 <= peak)
      \/ (mode = "0-140" /\ 140 <= peak)
      \/ (mode = "60-100"
          /\ (exists s, In s (lastTen buf) /\ 60 <= Sample.speed s)
          /\ (exists s, In s (lastTen buf) /\ 100 <= Sample.speed s)).
Proof.
  unfold modeStop.
  destruct (String.eqb_spec mode "201") as [-> | N1].
  { cbn [andb]. destruct (cum >=? 201 - off) eqn:E.
    - apply Qle_bool_iff in E. split; [auto | done].
    - apply Qleb_gt in E. cbn. split; [done |].
      intros [[_ ?] | [[? _] | [[? _] | [[? _] | [? _]]]]];
        [lra | done..]. }
  destruct (String.eqb_spec mode "402") as [-> | N2].
  { cbn [andb]. destruct (cum >=? 402 - off) eqn:E.
    - apply Qle_bool_iff in E. split; [auto | done].
    - apply Qleb_gt in E. cbn. split; [done |].
      intros [[? _] | [[_ ?] | [[? _] | [[? _] | [? _]]]]];
        [done | lra | done..]. }
  destruct (String.eqb_spec mode "0-100") as [-> | N3].
  { cbn [andb]. destruct (peak >=? 100) eqn:E.
    - apply Qle_bool_iff in E. split; [auto | done].
    - apply Qleb_gt in E. cbn. split; [done |].
      intros [[? _] | [[? _] | [[_ ?] | [[? _] | [? _]]]]];
        [done | done | lra | done..]. }
  destruct (String.eqb_spec mode "0-140") as [-> | N4].
  { cbn [andb]. destruct (peak >=? 140) eqn:E.
    - apply Qle_bool_iff in E. split; [auto 6 | done].
    - apply Qleb_gt in E. cbn. split; [done |].
      intros [[? _] | [[? _] | [[? _] | [[_ ?] | [? _]]]]];
        [done | done | done | lra | done]. }
  cbn [andb].
  destruct (String.eqb_spec mode "60-100") as [-> | N5].
  - cbv zeta. rewrite andb_true_iff, !existsb_speed. split; [auto 7 |].
    intros [[? _] | [[? _] | [[? _] | [[? _] | [_ ?]]]]]; done.
  - split; [done |].
    intros [[? _] | [[? _] | [[? _] | [[? _] | [? _]]]]]; done.
Qed.

(** X15.  A fix processed while running finishes the run exactly when,
    after it, the 402 m milestone holds a capture, or the selected mode's
    row of the table is met: 201 or 402 m of distance less the rollout
    offset, a peak of 100 or 140 km/h, or the 60-100 row.  With another
    mode text, or no mode selector at all, only the 402 m milestone
    finishes the run. *)
Theorem finish_conditions (st : State) (e : PosEvent) (sp : Pos.pos) :
  finished st = false -> armed st = true -> running st = true ->
  startPos st = Some sp ->
  let st' := onPos st e in
  let off := rolloutOffsetOf e in
  finished st' = true
  <-> is_Some (markAt (marks st') 402)
      \/ (modeValue e = Some "201" /\ 201 - off <= cumulative st')
      \/ (modeValue e = Some "402" /\ 402 - off <= cumulative st')
      \/ (modeValue e = Some "0-100" /\ 100 <= peakSpeed st')
      \/ (modeValue e = Some "0-140" /\ 140 <= peakSpeed st')
      \/ (modeValue e = Some "60-100"
          /\ (exists s, In s (lastTen (pushed st e)) /\ 60 <= Sample.speed s)
          /\ (exists s, In s (lastTen (pushed st e))
                        /\ 100 <= Sample.speed s)).
Proof.
  intros Hf Ha Hr Hs. cbv zeta.
  destruct (onPos_running st e sp Hf Ha Hr Hs)
    as (Hc & _ & Hm & Hfin & _ & _ & _ & _ & Hp).
  rewrite Hfin, Hm, Hc, Hp.
  destruct (accumulated_frame e (smoothedOf st e) (fuse st e))
    as (_ & _ & _ & _ & _ & Ap & Ab & _ & Ac & _).
  destruct (fuse_frame st e) as (_ & _ & _ & _ & _ & Fc & _ & _ & Fb & _).
  rewrite <- Fc at 1 2. rewrite <- Ac, <- Ap, <- Fb, <- Ab.
  generalize (accumulated e (smoothedOf st e) (fuse st e)). intros acc.
  unfold stops.
  destruct (bool_decide (is_Some (markAt (marks acc) 402))) eqn:E402.
  - apply bool_decide_eq_true in E402. tauto.
  - apply bool_decide_eq_false in E402.
    destruct (modeValue e) as [mode |].
    + rewrite modeStop_spec. split.
      * intros [[-> ?] | [[-> ?] | [[-> ?] | [[-> ?] | [-> ?]]]]]; auto 7.
      * intros [? | [[[= <-] ?] | [[[= <-] ?] | [[[= <-] ?]
                | [[[= <-] ?] | [[= <-] ?]]]]]]; [done | auto 7..].
    + split; [done |].
      intros [? | [[? _] | [[? _] | [[? _] | [[? _] | [? _]]]]]]; done.
Qed.

(** ** The heading gate on distance (lines 264-277), case by case *)

Lemma gatedDelta_heading (st : State) (c : Coords.coords) :
  is_Some (lastPos st) -> is_Some (snd (gatedDelta st c)).
Proof. intros [lp Hl]. unfold gatedDelta. rewrite Hl. cbn. eauto. Qed.

Lemma lifecycle_runSettled (e : PosEvent) (s : Q) (st : State) :
  finished st = false ->
  (armed st = true -> is_Some (startPos st) -> is_Some (lastPos st)) ->
  (running st = true -> armed st = true /\ is_Some (startPos st)) ->
  runSettled (lifecycle e s st).
Proof.
  intros Hf Hpos Hrun.
  destruct (armed st) eqn:Ea.
  - destruct (startPos st) as [sp |] eqn:Es.
    + pose proof (gatedDelta_heading st (coords e) (Hpos eq_refl (mk_is_Some _ _ eq_refl)))
        as Hh.
      destruct (running st) eqn:Er.
      * destruct (lifecycle_running_step e s st sp Hf Ea Er Es)
          as (_ & Hlh & _ & Hfin & Hr' & Ha' & Hs' & _).
        assert (is_Some (lastPos (lifecycle e s st))) as Hlp.
        { rewrite (lifecycle_running _ _ _ sp) by done.
          destruct (stops _ _); cbn; eauto. }
        split; [done |]. rewrite Hr', Ha', Hfin, Hs', Hlh.
        destruct (stops _ _); [done | eauto].
      * rewrite (lifecycle_waiting _ _ _ sp) by done. cbv zeta.
        destruct (startReady _ _); split; cbn; rewrite ?Ea, ?Hf, ?Es, ?Er.
        -- eauto.
        -- intros _. repeat split; eauto.
        -- eauto.
        -- done.
    + assert (running st = false) as Er.
      { destruct (running st); [| done].
        destruct (Hrun eq_refl) as [_ [? ?]]. done. }
      rewrite lifecycle_no_lock by done.
      destruct (_ <=? 50); split; cbn; rewrite ?Er; eauto; done.
  - assert (running st = false) as Er.
    { destruct (running st); [| done]. by destruct (Hrun eq_refl). }
    rewrite lifecycle_not_armed by done. split; cbn; rewrite ?Ea, ?Er; done.
Qed.

Lemma onPos_runSettled (st : State) (e : PosEvent) :
  runSettled st -> runSettled (onPos st e).
Proof.
  intros HS.
  assert (finished st = true \/ finished st = false) as [Hf | Hf]
    by (destruct (finished st); auto).
  { by rewrite onPos_finished. }
  destruct HS as [Hpos Hrun]. unfold onPos. rewrite Hf.
  destruct (fuse_frame st e) as (Fa & Fr & Ff & Fs & Fl & _).
  apply lifecycle_runSettled.
  - congruence.
  - rewrite Fa, Fs, Fl. exact Hpos.
  - rewrite Fa, Fr, Fs. intros Hr. destruct (Hrun Hr) as (? & _ & ? & _).
    done.
Qed.

Lemma Reachable_runSettled (st : State) : Reachable st -> runSettled st.
Proof.
  induction 1 as [| st c _ IH]; [by split |].
  destruct c as [geo id | | | e]; cbn [exec].
  - unfold arm. destruct (armed st) eqn:Ea.
    + destruct (clearWatchThrows _ _); by split.
    + destruct geo; cbn [negb]; [| exact IH]. split; cbn; [| done].
      intros _ [? ?]. done.
  - by split.
  - by split.
  - by apply onPos_runSettled.
Qed.

(** X16.  In every state the machine can reach, a running machine is
    armed, unfinished and locked and remembers both a previous position
    and a bearing: the first segment after the lock is used up, and its
    bearing stored, while the machine is still waiting, so the distance
    block never meets a missing bearing while distance accumulates.  With
    that, every fix with non-zero latitude and longitude that reaches a
    running machine adds the full haversine distance from the previous
    position. *)
Theorem running_machine_remembers_bearing (st : State) :
  Reachable st -> running st = true ->
  (exists lp lh,
      lastPos st = Some lp /\ lastHeading st = Some lh
      /\ armed st = true /\ finished st = false /\ is_Some (startPos st))
  /\ (forall e,
        ~ Coords.latitude (coords e) == 0 ->
        ~ Coords.longitude (coords e) == 0 ->
        exists lp,
          lastPos st = Some lp
          /\ cumulative (onPos st e)
             = cumulative st + hav lp (posOf (coords e))).
Proof.
  intros HR Hr.
  destruct (Reachable_runSettled st HR) as [Hpos Hrun].
  destruct (Hrun Hr) as (Ha & Hf & Hs & [lh Hh]).
  destruct (Hpos Ha Hs) as [lp Hl].
  split; [by exists lp, lh |].
  intros e Hlat Hlon. exists lp. split; [done |].
  destruct Hs as [sp Hs].
  destruct (onPos_running st e sp Hf Ha Hr Hs) as (Hc & _).
  by rewrite Hc, (gatedDelta_after_fuse st e lp lh).
Qed.

(** X17.  The one situation in which the distance block compares with the
    bearing of the previous segment: a fix with latitude 0 or longitude
    0, for which the speed block is skipped.  Then a bearing change of
    more than 25 degrees adds nothing to the distance, a smaller one adds
    the full segment, and either way the new bearing is remembered. *)
Theorem heading_gate_on_zero_coordinate
    (st : State) (e : PosEvent) (sp lp : Pos.pos) (lh : Q) :
  finished st = false -> armed st = true -> running st = true ->
  startPos st = Some sp -> lastPos st = Some lp -> lastHeading st = Some lh ->
  Coords.latitude (coords e) == 0 \/ Coords.longitude (coords e) == 0 ->
  let hNow := headingDeg lp (posOf (coords e)) in
  (HEADING_MAX_DEG < angDiff lh hNow ->
     cumulative (onPos st e) = cumulative st + 0)
  /\ (angDiff lh hNow <= HEADING_MAX_DEG ->
      cumulative (onPos st e) = cumulative st + hav lp (posOf (coords e)))
  /\ lastHeading (onPos st e) = Some hNow.
Proof.
  intros Hf Ha Hr Hs Hl Hh Hz hNow.
  destruct (onPos_running st e sp Hf Ha Hr Hs) as (Hc & Hd & _).
  rewrite Hc, Hd, (gatedDelta_zero_coordinate st e lp Hl Hz), Hh.
  fold hNow. cbn [fst snd]. split; [| split]; [| | done].
  - intros Hgt. apply Qleb_gt in Hgt. by rewrite Hgt.
  - intros Hle. apply Qle_bool_iff in Hle. by rewrite Hle.
Qed.

(** ** Bearings (lines 102-107) *)

(** X18.  Whenever the arctangent returns an angle between minus pi and
    pi (and pi is positive), the bearing is normalised into [0, 360). *)
Theorem headingDeg_range (a b : Pos.pos) :
  0 < Math_PI ->
  (forall y x, - Math_PI <= Math_atan2 y x /\ Math_atan2 y x <= Math_PI) ->
  0 <= headingDeg a b /\ headingDeg a b < 360.
Proof.
  intros Hpi Hat. unfold headingDeg. cbv zeta.
  match goal with
  | |- context [Math_atan2 ?y ?x] =>
      destruct (Hat y x) as [Hlo Hhi]; generalize dependent (Math_atan2 y x)
  end.
  intros brad Hlo Hhi.
  assert (-180 <= brad * 180 / Math_PI) as H1
    by (apply Qle_shift_div_l; [exact Hpi | lra]).
  assert (brad * 180 / Math_PI <= 180) as H2
    by (apply Qle_shift_div_r; [exact Hpi | lra]).
  set (v := brad * 180 / Math_PI) in *. clearbody v.
  destruct (Qlt_le_dec (v + 360) 360) as [Hlt | Hge].
  - rewrite (jsmod_360 (v + 360) 0); unfold inject_Z; lra.
  - rewrite (jsmod_360 (v + 360) 1); unfold inject_Z; lra.
Qed.

(** ** The earlier iteration of the handler (lines 654-860) *)

(** X19.  In the earlier iteration, which has no [finished] flag, a fix
    that arrives after the run has finished still goes through the speed
    half: a measured speed above the recorded peak replaces the peak and
    the buffer keeps growing, while distance and milestones stay.  (This
    is what the [finished] flag of the later iteration prevents.) *)
Theorem earlier_iteration_peak_not_frozen
    (e0 e : PosEvent) (st : State) (m : Q) :
  let fin := Earlier.finishRun e0 st in
  ghost (fst (rebuild fin e)) = Some m -> peakSpeed st < m ->
  peakSpeed (Earlier.onPos fin e) = m
  /\ samples (Earlier.onPos fin e) = pushed fin e
  /\ cumulative (Earlier.onPos fin e) = cumulative st
  /\ marks (Earlier.onPos fin e) = marks st.
Proof.
  intros fin Hm Hlt. unfold Earlier.onPos, Earlier.lifecycle.
  destruct (fuse_frame fin e) as (Fa & _ & _ & _ & _ & Fc & _ & Fm & Fb & _).
  destruct (fuse_rest fin e) as (_ & Fp & _).
  assert (armed fin = false) as Ha by reflexivity.
  rewrite Fa, Ha. cbn [negb].
  cbn [peakSpeed samples cumulative marks set_lastPos].
  rewrite Fp, Fb, Fc, Fm, Hm.
  assert (peakSpeed fin = peakSpeed st) as -> by reflexivity.
  apply Qltb_lt in Hlt. rewrite Hlt. done.
Qed.

End Further.

(** ** The power estimate (lines 410-421) *)

(** X20.  The estimate exists exactly when the last run captured the chosen
    marker with a positive time and a positive speed; it then reports the
    marker's time and speed in m/s, a power with [power * t = m * v^2 / 2],
    and that power in horsepower (745.7 W), positive for a positive mass. *)
Theorem estimateWHPFromMarker_spec (massKg : Q) (marker : Z) (st : State) :
  (forall est,
      estimateWHPFromMarker massKg marker st = Some est ->
      exists r mk,
        lastRun st = Some r /\ markAt (rr_marks r) marker = Some mk
        /\ 0 < Mark.time mk /\ 0 < Mark.speed mk
        /\ Estimate.t est = Mark.time mk
        /\ Estimate.v est = Mark.speed mk / 3.6
        /\ Estimate.powerW est * Estimate.t est
           == 0.5 * massKg * Estimate.v est * Estimate.v est
        /\ Estimate.hp est * 745.7 == Estimate.powerW est
        /\ (0 < massKg -> 0 < Estimate.hp est))
  /\ (forall r mk,
        lastRun st = Some r -> markAt (rr_marks r) marker = Some mk ->
        0 < Mark.time mk -> 0 < Mark.speed mk ->
        is_Some (estimateWHPFromMarker massKg marker st)).
Proof.
  unfold estimateWHPFromMarker. split.
  - intros est. destruct (lastRun st) as [r |]; [| done].
    destruct (markAt (rr_marks r) marker) as [mk |] eqn:Em; [| done].
    destruct (negb (truthy (Mark.time mk)) || negb (truthy (Mark.speed mk)));
      [done |].
    destruct ((Mark.time mk <=? 0) || (Mark.speed mk / 3.6 <=? 0)) eqn:E;
      [done |].
    apply orb_false_elim in E as [Et Ev].
    apply Qleb_gt in Et, Ev. intros [= <-]. exists r, mk. cbn.
    assert (0 < Mark.speed mk) as Hs.
    { destruct (Qlt_le_dec 0 (Mark.speed mk)) as [? | Hle]; [done |].
      exfalso. apply (Qlt_not_le _ _ Ev).
      apply Qle_shift_div_r; [reflexivity | lra]. }
    repeat split; try done.
    + field. intros Hz. rewrite Hz in Et. by apply Qlt_irrefl in Et.
    + field. intros Hz. rewrite Hz in Et. by apply Qlt_irrefl in Et.
    + intros Hmass.
      apply Qlt_shift_div_l; [reflexivity |].
      apply Qlt_shift_div_l; [exact Et |].
      set (v := Mark.speed mk / 3.6) in *. clearbody v.
      assert (0 < massKg * v) as H1 by nra.
      assert (0 < massKg * v * v) as H2 by nra. lra.
  - intros r mk -> -> Ht Hs.
    assert (truthy (Mark.time mk) = true) as ->
      by (apply truthy_true; intros Hz; rewrite Hz in Ht;
          by apply Qlt_irrefl in Ht).
    assert (truthy (Mark.speed mk) = true) as ->
      by (apply truthy_true; intros Hz; rewrite Hz in Hs;
          by apply Qlt_irrefl in Hs).
    cbn [negb orb].
    apply Qleb_gt in Ht as ->.
    assert (0 < Mark.speed mk / 3.6) as Hv
      by (apply Qlt_shift_div_l; [reflexivity | lra]).
    apply Qleb_gt in Hv as ->. cbn. eauto.
Qed.

(** ** The further properties on sample inputs *)

Section FurtherChecks.

Import Samples MoreSamples.
#[local] Existing Instance ApproxMath.lib.

Local Ltac run := vm_compute; first [reflexivity | discriminate].

Lemma buffer_within_window_witness :
  last (samples (onPos locked (standingFix 1500)))
  = Some (Sample.mk 1500 (smoothedOf locked (standingFix 1500)))
  /\ forall s, In s (samples (onPos locked (standingFix 1500))) ->
               1500 - Sample.t s <= 3000.
Proof.
  assert (finished locked = false) as Hf by run.
  destruct (buffer_within_window locked (standingFix 1500) Hf)
    as (Hin & Hlast & _).
  split.
  - apply Hlast. run.
  - intros s Hs. by apply Hin.
Defined.

Lemma graphSamples_bounded_witness :
  Reachable locked /\ (length (graphSamples locked) <= 2000)%nat.
Proof.
  assert (Reachable locked) as HR.
  { apply (Reachable_exec _ (CmdFix (standingFix 1000))).
    apply (Reachable_exec _ (CmdArm true 1)). apply Reachable_init. }
  exact (conj HR (graphSamples_bounded locked HR)).
Defined.

Lemma finishing_fix_records_run_witness :
  finished (onPos nearFinish northFix60) = true
  /\ exists r,
       lastRun (onPos nearFinish northFix60) = Some r
       /\ rr_distance r = cumulative (onPos nearFinish northFix60)
       /\ rr_peak r = peakSpeed (onPos nearFinish northFix60)
       /\ rr_marks r = marks (onPos nearFinish northFix60)
       /\ rr_d402 r
          = Mark.time <$> markAt (marks (onPos nearFinish northFix60)) 402.
Proof.
  assert (finished (onPos nearFinish northFix60) = true) as Hfin by run.
  split; [exact Hfin |].
  exact (proj1 (finishing_fix_records_run nearFinish northFix60
                  (Pos.mk (-6.2) 106.8) eq_refl eq_refl eq_refl eq_refl Hfin)).
Defined.

Lemma arm_twice_disarms_witness :
  armed init = false
  /\ armed (arm true 1 init) = true
  /\ armed (arm false 2 (arm true 1 init)) = false
  /\ status (arm false 2 (arm true 1 init)) = StRequestingGPS
  /\ status (arm true 2 (arm true 1 init)) = StIdle.
Proof.
  destruct (arm_twice_disarms false 1 2 init eq_refl)
    as ((Ha & _) & (Hd & _) & _ & Hthrow).
  destruct (arm_twice_disarms true 1 2 init eq_refl)
    as (_ & _ & Hok & _).
  split; [reflexivity |]. split; [exact Ha |]. split; [exact Hd |].
  split; [apply Hthrow; [reflexivity | discriminate] |].
  apply Hok. by left.
Defined.

Lemma unarmed_machine_ignores_fixes_witness :
  armed stopped = false
  /\ cumulative (feed stopped [northFix; southFix]) = cumulative stopped
  /\ marks (feed stopped [northFix; southFix]) = marks stopped.
Proof.
  destruct (unarmed_machine_ignores_fixes stopped [northFix; southFix]
              eq_refl) as ((_ & _ & _ & Hc & _ & _ & Hm & _) & _).
  exact (conj eq_refl (conj Hc Hm)).
Defined.

Lemma lock_requires_accuracy_witness :
  startPos (onPos armedNoLock goodFix) = Some (posOf (coords goodFix))
  /\ startPos (onPos armedNoLock poorFix) = None
  /\ running (onPos armedNoLock goodFix) = running armedNoLock.
Proof.
  destruct (lock_requires_accuracy armedNoLock goodFix
              eq_refl eq_refl eq_refl) as (Hgood & _ & Hrun & _).
  destruct (lock_requires_accuracy armedNoLock poorFix
              eq_refl eq_refl eq_refl) as (_ & Hpoor & _).
  split; [apply Hgood; run |]. split; [apply Hpoor; run | exact Hrun].
Defined.

Lemma rearm_after_finish_witness :
  finished midRun = false
  /\ armed (arm true 7 (finishRun northFix midRun)) = true
  /\ finished (arm true 7 (finishRun northFix midRun)) = false
  /\ startPos (onPos (arm true 7 (finishRun northFix midRun)) goodFix)
     = Some (posOf (coords goodFix)).
Proof.
  destruct (rearm_after_finish northFix goodFix 7 midRun eq_refl)
    as (Ha & Hf & _ & _ & _ & _ & _ & Hlock).
  split; [reflexivity |]. split; [exact Ha |]. split; [exact Hf |].
  apply Hlock. run.
Defined.

Lemma kalman_covariance_settles_witness :
  Reachable locked
  /\ 0.4 <= Kalman.p (kalman locked) /\ Kalman.p (kalman locked) <= 1.
Proof.
  assert (Reachable locked) as HR.
  { apply (Reachable_exec _ (CmdFix (standingFix 1000))).
    apply (Reachable_exec _ (CmdArm true 1)). apply Reachable_init. }
  destruct (kalman_covariance_settles locked HR) as ((_ & _ & Hlo & Hhi) & _).
  exact (conj HR (conj Hlo Hhi)).
Defined.

Lemma peak_tracks_measured_speed_witness :
  peakSpeed midRun <= peakSpeed (onPos midRun fasterFix)
  /\ 20 * 3.6 <= peakSpeed (onPos midRun fasterFix).
Proof.
  assert (armed midRun = false \/ startPos midRun = None
          \/ running midRun = true) as Hcase by (right; right; reflexivity).
  destruct (peak_tracks_measured_speed midRun fasterFix eq_refl Hcase)
    as (Hmono & Hm).
  split; [exact Hmono |]. apply Hm. run.
Defined.

Lemma milestones_captured_in_order_witness :
  Reachable locked /\ marksOrdered (marks locked).
Proof.
  assert (Reachable locked) as HR.
  { apply (Reachable_exec _ (CmdFix (standingFix 1000))).
    apply (Reachable_exec _ (CmdArm true 1)). apply Reachable_init. }
  exact (conj HR (milestones_captured_in_order locked HR)).
Defined.

Lemma finish_conditions_witness :
  finished (onPos nearFinish northFix60) = true
  <-> is_Some (markAt (marks (onPos nearFinish northFix60)) 402)
      \/ (modeValue northFix60 = Some "201"
          /\ 201 - rolloutOffsetOf northFix60
             <= cumulative (onPos nearFinish northFix60))
      \/ (modeValue northFix60 = Some "402"
          /\ 402 - rolloutOffsetOf northFix60
             <= cumulative (onPos nearFinish northFix60))
      \/ (modeValue northFix60 = Some "0-100"
          /\ 100 <= peakSpeed (onPos nearFinish northFix60))
      \/ (modeValue northFix60 = Some "0-140"
          /\ 140 <= peakSpeed (onPos nearFinish northFix60))
      \/ (modeValue northFix60 = Some "60-100"
          /\ (exists s, In s (lastTen (pushed nearFinish northFix60))
                        /\ 60 <= Sample.speed s)
          /\ (exists s, In s (lastTen (pushed nearFinish northFix60))
                        /\ 100 <= Sample.speed s)).
Proof.
  exact (finish_conditions nearFinish northFix60 (Pos.mk (-6.2) 106.8)
           eq_refl eq_refl eq_refl eq_refl).
Defined.

Lemma running_machine_remembers_bearing_witness :
  Reachable launched /\ running launched = true
  /\ exists lp lh, lastPos launched = Some lp /\ lastHeading launched = Some lh.
Proof.
  assert (Reachable launched) as HR.
  { unfold launched. apply Reachable_exec, Reachable_exec.
    apply (Reachable_exec _ (CmdFix (standingFix 1000))).
    apply (Reachable_exec _ (CmdArm true 1)). apply Reachable_init. }
  assert (running launched = true) as Hr by run.
  destruct (running_machine_remembers_bearing launched HR Hr)
    as ((lp & lh & Hl & Hh & _) & _).
  split; [exact HR |]. split; [exact Hr |].
  exists lp, lh. split; [exact Hl | exact Hh].
Defined.

Lemma heading_gate_on_zero_coordinate_witness :
  HEADING_MAX_DEG
  < angDiff 0 (headingDeg (Pos.mk 0.0001 109.3) (posOf (coords equatorFix)))
  /\ cumulative (onPos equatorTurn equatorFix) = cumulative equatorTurn + 0.
Proof.
  assert (HEADING_MAX_DEG
          < angDiff 0 (headingDeg (Pos.mk 0.0001 109.3)
                                  (posOf (coords equatorFix)))) as Hturn
    by run.
  assert (Coords.latitude (coords equatorFix) == 0
          \/ Coords.longitude (coords equatorFix) == 0) as Hz
    by (left; reflexivity).
  destruct (heading_gate_on_zero_coordinate equatorTurn equatorFix
              (Pos.mk (-6.2) 106.8) (Pos.mk 0.0001 109.3) 0
              eq_refl eq_refl eq_refl eq_refl eq_refl eq_refl Hz)
    as (Hrej & _).
  exact (conj Hturn (Hrej Hturn)).
Defined.

Lemma BoundedMath_atan2_range (y x : Q) :
  - ApproxMath.PI <= BoundedMath.atan2 y x
  /\ BoundedMath.atan2 y x <= ApproxMath.PI.
Proof.
  unfold BoundedMath.atan2. split.
  - apply Q.le_max_l.
  - apply Q.max_lub; [vm_compute; discriminate | apply Q.le_min_l].
Defined.

Lemma headingDeg_range_witness :
  0 <= @headingDeg BoundedMath.lib (Pos.mk (-6.2) 106.8) (Pos.mk (-6.2001) 106.8)
  /\ @headingDeg BoundedMath.lib (Pos.mk (-6.2) 106.8) (Pos.mk (-6.2001) 106.8)
     < 360.
Proof.
  apply (@headingDeg_range BoundedMath.lib); [reflexivity |].
  exact BoundedMath_atan2_range.
Defined.

Lemma earlier_iteration_peak_not_frozen_witness :
  peakSpeed (Earlier.finishRun northFix midRun) = 40
  /\ peakSpeed (Earlier.onPos (Earlier.finishRun northFix midRun) fasterFix)
     = 20 * 3.6.
Proof.
  split; [reflexivity |].
  refine (proj1 (earlier_iteration_peak_not_frozen northFix fasterFix midRun
                   (20 * 3.6) _ _)); run.
Defined.

Lemma estimateWHPFromMarker_spec_witness :
  is_Some (estimateWHPFromMarker 180 201 recorded)
  /\ estimateWHPFromMarker 180 20 recorded = None.
Proof.
  split; [| reflexivity].
  eapply (proj2 (estimateWHPFromMarker_spec 180 201 recorded));
    [reflexivity | reflexivity | reflexivity | reflexivity].
Defined.

End FurtherChecks.
